(** * Financial reconciliation engine: a shallow embedding of backend/server.py

  The development follows the three computations of the server:
  the reconciliation matcher ([reconcile_transactions]), the anomaly
  detection pipeline ([detect_anomalies_statistical], [detect_anomalies_ml],
  [run_anomaly_detection]) and the data quality scorer
  ([calculate_data_quality]).

  Amounts are Python floats, i.e. IEEE 754 binary64 numbers: they are
  modelled by Rocq's primitive floats, so that [0.01], [100], [3] and the
  arithmetic on them are the ones the interpreter uses.  Strings are
  [string]; the set [matched_gl_ids] is a [gset] of document identifiers.
  The store is a record of its four collections, and a run is the list of
  writes it performs on it.  The estimators of scikit-learn and the date
  parser of pandas are parameters of the model ([External]). *)

From Stdlib Require Import ZArith List String Floats Uint63 Lia.
From stdpp Require Import base gmap sets list strings pretty.
Import ListNotations.
Set Warnings "-inexact-float".

(** ** Documents of the store *)

(** A document of [db.transactions]: the fields of the pydantic model
  [Transaction] plus the [_id] (an ObjectId) that the store gives to every
  inserted document. *)
Module Transaction.
Record t := mk {
  _id : N;
  txn_id : string;
  date : string;
  amount : float;
  account_id : string;
  counterparty : string }.
End Transaction.
Abbreviation Transaction := Transaction.t.

(** A document of [db.general_ledger]. *)
Module GeneralLedgerEntry.
Record t := mk {
  _id : N;
  gl_id : string;
  date : string;
  debit_amount : float;
  credit_amount : float;
  account_id : string }.
End GeneralLedgerEntry.
Abbreviation GeneralLedgerEntry := GeneralLedgerEntry.t.

(** [ReconciliationResult]; the generated [id] and [created_at] fields play no
  part in the matching and are left out. *)
Module ReconciliationResult.
Record t := mk {
  status : string;
  transaction_id : option string;
  gl_id : option string;
  account_id : string;
  date : string;
  amount_difference : option float }.
End ReconciliationResult.
Abbreviation ReconciliationResult := ReconciliationResult.t.

(** [AnomalyResult], again without [id] and [created_at]. *)
Module AnomalyResult.
Record t := mk {
  transaction_id : string;
  anomaly_type : string;
  anomaly_score : float;
  is_anomaly : bool;
  detection_method : string }.
End AnomalyResult.
Abbreviation AnomalyResult := AnomalyResult.t.

(** ** Reconciliation engine *)

Module Import Matcher.

(** The net amount of a ledger entry, [gl_amount] in the source. *)
Definition gl_amount (gl : GeneralLedgerEntry) : float :=
  (GeneralLedgerEntry.debit_amount gl - GeneralLedgerEntry.credit_amount gl)%float.

(** The guard of the inner loop: same account, same date, not yet claimed. *)
Definition candidate (txn : Transaction) (gl : GeneralLedgerEntry)
    (matched_gl_ids : gset N) : bool :=
  String.eqb (GeneralLedgerEntry.account_id gl) (Transaction.account_id txn)
  && String.eqb (GeneralLedgerEntry.date gl) (Transaction.date txn)
  && negb (bool_decide (GeneralLedgerEntry._id gl ∈ matched_gl_ids)).

Definition matched_result (txn : Transaction) (gl : GeneralLedgerEntry)
    : ReconciliationResult :=
  ReconciliationResult.mk "matched"
    (Some (Transaction.txn_id txn)) (Some (GeneralLedgerEntry.gl_id gl))
    (Transaction.account_id txn) (Transaction.date txn) (Some 0%float).

Definition amount_mismatch_result (txn : Transaction) (gl : GeneralLedgerEntry)
    : ReconciliationResult :=
  ReconciliationResult.mk "amount_mismatch"
    (Some (Transaction.txn_id txn)) (Some (GeneralLedgerEntry.gl_id gl))
    (Transaction.account_id txn) (Transaction.date txn)
    (Some (gl_amount gl - Transaction.amount txn)%float).

Definition missing_gl_result (txn : Transaction) : ReconciliationResult :=
  ReconciliationResult.mk "missing_gl"
    (Some (Transaction.txn_id txn)) None
    (Transaction.account_id txn) (Transaction.date txn) None.

Definition missing_transaction_result (gl : GeneralLedgerEntry)
    : ReconciliationResult :=
  ReconciliationResult.mk "missing_transaction"
    None (Some (GeneralLedgerEntry.gl_id gl))
    (GeneralLedgerEntry.account_id gl) (GeneralLedgerEntry.date gl) None.

(** The two amount tests of the inner loop, taken together: the entry ends
    the scan when either holds. *)
Definition within_tolerance (txn : Transaction) (gl : GeneralLedgerEntry) : bool :=
  (abs (gl_amount gl - Transaction.amount txn) <? 0.01)%float
  || (abs (gl_amount gl - Transaction.amount txn) <? 100)%float.

(** The inner loop [for gl in gl_entries] for one transaction.  [Some (gl, result)]
    is the [break]: [gl] is the entry the loop stopped at and [result] the
    result built there; [None] is the loop running to its end with
    [matched] still [False]. *)
Fixpoint scan_gl_entries (txn : Transaction) (gl_entries : list GeneralLedgerEntry)
    (matched_gl_ids : gset N) : option (GeneralLedgerEntry * ReconciliationResult) :=
  match gl_entries with
  | [] => None
  | gl :: rest =>
      if candidate txn gl matched_gl_ids then
        if (abs (gl_amount gl - Transaction.amount txn) <? 0.01)%float then
          Some (gl, matched_result txn gl)
        else if (abs (gl_amount gl - Transaction.amount txn) <? 100)%float then
          Some (gl, amount_mismatch_result txn gl)
        else scan_gl_entries txn rest matched_gl_ids
      else scan_gl_entries txn rest matched_gl_ids
  end.

(** An entry ends the scan of [txn] when it passes the guard and one of the
    amount tests. *)
Definition eligible (txn : Transaction) (matched_gl_ids : gset N)
    (gl : GeneralLedgerEntry) : bool :=
  candidate txn gl matched_gl_ids && within_tolerance txn gl.

(** The result built at the entry the scan stops at. *)
Definition result_at (txn : Transaction) (gl : GeneralLedgerEntry)
    : ReconciliationResult :=
  if (abs (gl_amount gl - Transaction.amount txn) <? 0.01)%float
  then matched_result txn gl else amount_mismatch_result txn gl.

(** The state of the outer loop: [results] and [matched_gl_ids]. *)
Definition loop_state : Type := list ReconciliationResult * gset N.

(** One iteration of [for txn in transactions]. *)
Definition process_transaction (gl_entries : list GeneralLedgerEntry)
    (st : loop_state) (txn : Transaction) : loop_state :=
  match scan_gl_entries txn gl_entries st.2 with
  | Some (gl, result) =>
      (st.1 ++ [result], {[GeneralLedgerEntry._id gl]} ∪ st.2)
  | None => (st.1 ++ [missing_gl_result txn], st.2)
  end.

Definition transactions_loop (gl_entries : list GeneralLedgerEntry)
    (transactions : list Transaction) (st : loop_state) : loop_state :=
  fold_left (process_transaction gl_entries) transactions st.

(** The result appended for [txn] by the iteration that starts in state [st]. *)
Definition result_of (gl_entries : list GeneralLedgerEntry) (st : loop_state)
    (txn : Transaction) : ReconciliationResult :=
  match scan_gl_entries txn gl_entries st.2 with
  | Some (_, result) => result
  | None => missing_gl_result txn
  end.

(** A result that stands for [txn]: it carries its id, account and date and
    one of the three verdicts a transaction can get. *)
Definition transaction_verdict (txn : Transaction) (r : ReconciliationResult) : Prop :=
  ReconciliationResult.transaction_id r = Some (Transaction.txn_id txn)
  ∧ ReconciliationResult.account_id r = Transaction.account_id txn
  ∧ ReconciliationResult.date r = Transaction.date txn
  ∧ In (ReconciliationResult.status r) ["matched"; "amount_mismatch"; "missing_gl"].

(** A result that references a ledger entry as claimed by a transaction. *)
Definition claiming (r : ReconciliationResult) : Prop :=
  ReconciliationResult.status r = "matched"
  ∨ ReconciliationResult.status r = "amount_mismatch".

(** The second loop: ledger entries whose [_id] was never claimed. *)
Definition unclaimed (matched_gl_ids : gset N) (gl : GeneralLedgerEntry) : bool :=
  negb (bool_decide (GeneralLedgerEntry._id gl ∈ matched_gl_ids)).

Definition missing_transactions (gl_entries : list GeneralLedgerEntry)
    (matched_gl_ids : gset N) : list ReconciliationResult :=
  map missing_transaction_result (List.filter (unclaimed matched_gl_ids) gl_entries).

(** [matched_gl_ids] when the first loop has ended. *)
Definition claimed_gl_ids (transactions : list Transaction)
    (gl_entries : list GeneralLedgerEntry) : gset N :=
  (transactions_loop gl_entries transactions ([], ∅)).2.

(** The list [results] as it stands when the function starts to store it. *)
Definition reconcile_results (transactions : list Transaction)
    (gl_entries : list GeneralLedgerEntry) : list ReconciliationResult :=
  let st := transactions_loop gl_entries transactions ([], ∅) in
  st.1 ++ missing_transactions gl_entries st.2.

End Matcher.

(** ** The persisted collections *)

Module Import Store.

(** The four collections the two engines read and write. *)
Record Database := mkDatabase {
  transactions : list Transaction;
  general_ledger : list GeneralLedgerEntry;
  reconciliation_results : list ReconciliationResult;
  anomalies : list AnomalyResult }.

(** The awaited write operations of [reconcile_transactions] and
    [run_anomaly_detection], in the words of the driver:
    [delete_many({})], [insert_one(doc)], [insert_many(docs)]. *)
Inductive write : Type :=
| DeleteReconciliationResults
| InsertReconciliationResult (r : ReconciliationResult)
| DeleteAnomalies
| InsertAnomalies (rs : list AnomalyResult).

Definition apply_write (db : Database) (w : write) : Database :=
  match w with
  | DeleteReconciliationResults =>
      mkDatabase (transactions db) (general_ledger db) [] (anomalies db)
  | InsertReconciliationResult r =>
      mkDatabase (transactions db) (general_ledger db)
        (reconciliation_results db ++ [r]) (anomalies db)
  | DeleteAnomalies =>
      mkDatabase (transactions db) (general_ledger db)
        (reconciliation_results db) []
  | InsertAnomalies rs =>
      mkDatabase (transactions db) (general_ledger db)
        (reconciliation_results db) (anomalies db ++ rs)
  end.

(** A run that goes through all of its writes. *)
Definition exec (ws : list write) (db : Database) : Database :=
  fold_left apply_write ws db.

(** A run that fails (the awaited call raises, the process stops) when
    exactly [k] of its writes have been applied. *)
Definition interrupted (k : nat) (ws : list write) (db : Database) : Database :=
  exec (firstn k ws) db.

End Store.

(** The writes of [reconcile_transactions]: the collection is cleared
    (line 160) before the results are computed, and the results are then
    stored one document at a time (lines 224-226). *)
Definition reconcile_writes (db : Database) : list write :=
  DeleteReconciliationResults
  :: map InsertReconciliationResult
       (reconcile_results (transactions db) (general_ledger db)).

(** [reconcile_transactions]: the store after the run and the count it
    returns, [len(results)]. *)
Definition reconcile_transactions (db : Database) : Database * nat :=
  (exec (reconcile_writes db) db,
   length (reconcile_results (transactions db) (general_ledger db))).

(** ** Numerical library functions used by the statistical detector

    [scipy.stats.zscore], [Series.quantile] and [Series.median] are library
    code; they are written out here as the libraries compute them on a
    one-dimensional array of binary64 numbers, on the same primitive floats as
    the rest of the model. *)

Module Import Numeric.

(** [float(n)] for a count [n]. *)
Definition float_of_nat (n : nat) : float :=
  PrimFloat.of_uint63 (Uint63.of_Z (Z.of_nat n)).

(** [a.sum()], accumulated from left to right.  numpy adds a long array in
    blocks, which can change the last bits of an inexact sum; the lemmas below
    hold for any order of summation. *)
Definition np_sum (a : list float) : float :=
  fold_left PrimFloat.add a 0%float.

(** [a.mean()]. *)
Definition np_mean (a : list float) : float :=
  (np_sum a / float_of_nat (length a))%float.

(** [a.std(ddof=0)]: the population standard deviation. *)
Definition np_std (a : list float) : float :=
  let mn := np_mean a in
  PrimFloat.sqrt (np_mean (map (fun x => ((x - mn) * (x - mn))%float) a)).

(** [a.min()]; a nan in the array makes the minimum nan. *)
Definition np_min (a : list float) : float :=
  match a with
  | [] => nan
  | x :: rest =>
      fold_left (fun m y =>
        if PrimFloat.is_nan m || PrimFloat.is_nan y then nan
        else if (y <? m)%float then y else m) rest x
  end.

(** [scipy.stats.zscore(a)] with its defaults ([ddof=0],
    [nan_policy='propagate']): [(a - mn) / std], and nan everywhere when the
    input is constant.  scipy (from 1.7 on) tests the constant case on the
    data ([isconst = (a == a.min()).all()]), not on [std], because the
    computed mean of equal values need not be that value; it then sets [std]
    to 1 and overwrites the scores by nan. *)
Definition isconst (a : list float) : bool :=
  let a0 := np_min a in
  forallb (fun x => (x =? a0)%float) a.

Definition standard_score (a : list float) (x : float) : float :=
  let mn := np_mean a in
  let std := np_std a in
  if isconst a then nan else ((x - mn) / std)%float.

Definition zscore (a : list float) : list float :=
  map (standard_score a) a.

(** Ascending order of an array without nan. *)
Fixpoint insert_sorted (x : float) (l : list float) : list float :=
  match l with
  | [] => [x]
  | y :: l' => if (x <=? y)%float then x :: l else y :: insert_sorted x l'
  end.

Definition sort_floats (l : list float) : list float :=
  fold_right insert_sorted [] l.

(** pandas reductions skip missing values (nan) before they compute. *)
Definition dropna (a : list float) : list float :=
  List.filter (fun x => negb (PrimFloat.is_nan x)) a.

(** [floor] of a non-negative float, as a list index. *)
Definition floor_index (x : float) : nat :=
  match Prim2SF x with
  | S754_finite false m e => Z.to_nat (Z.shiftl (Z.pos m) e)
  | _ => 0
  end.

(** numpy's [_lerp(a, b, t)]. *)
Definition lerp (a b t : float) : float :=
  let diff_b_a := (b - a)%float in
  if (0.5 <=? t)%float then (b - diff_b_a * (1 - t))%float
  else (a + diff_b_a * t)%float.

(** [Series.quantile(q)] with linear interpolation: the virtual index
    [(n - 1) * q] in the sorted values, interpolated between its two
    neighbours; nan for an empty series. *)
Definition quantile (a : list float) (q : float) : float :=
  let values := sort_floats (dropna a) in
  match values with
  | [] => nan
  | _ =>
      let n := length values in
      let virtual_index := (float_of_nat (n - 1) * q)%float in
      let previous_index := floor_index virtual_index in
      let next_index := Nat.min (previous_index + 1) (n - 1) in
      let gamma := (virtual_index - float_of_nat previous_index)%float in
      lerp (nth previous_index values nan) (nth next_index values nan) gamma
  end.

(** [Series.median()]. *)
Definition median (a : list float) : float :=
  let values := sort_floats (dropna a) in
  let n := length values in
  match values with
  | [] => nan
  | _ =>
      if Nat.even n
      then ((nth (n / 2 - 1) values nan + nth (n / 2) values nan) / 2)%float
      else nth (n / 2) values nan
  end.

End Numeric.

(** ** Statistical anomaly detection *)

Module Import Statistical.

Definition amounts (transactions : list Transaction) : list float :=
  map Transaction.amount transactions.

(** [z_scores = np.abs(stats.zscore(df['amount']))]. *)
Definition z_scores (transactions : list Transaction) : list float :=
  map PrimFloat.abs (zscore (amounts transactions)).

(** The entry of [z_scores] on the row of [txn]. *)
Definition z_score_of (transactions : list Transaction) (txn : Transaction) : float :=
  PrimFloat.abs (standard_score (amounts transactions) (Transaction.amount txn)).

(** [df[z_scores > 3]], each row with its score ([z_scores[txn.name]]). *)
Definition z_anomalies (transactions : list Transaction)
    : list (Transaction * float) :=
  List.filter (fun row => (3 <? row.2)%float)
    (combine transactions (z_scores transactions)).

Definition z_score_anomaly (row : Transaction * float) : AnomalyResult :=
  AnomalyResult.mk (Transaction.txn_id row.1) "statistical" row.2 true "z_score".

Definition lower_bound (transactions : list Transaction) : float :=
  let Q1 := quantile (amounts transactions) 0.25 in
  let Q3 := quantile (amounts transactions) 0.75 in
  let IQR := (Q3 - Q1)%float in
  (Q1 - 1.5 * IQR)%float.

Definition upper_bound (transactions : list Transaction) : float :=
  let Q1 := quantile (amounts transactions) 0.25 in
  let Q3 := quantile (amounts transactions) 0.75 in
  let IQR := (Q3 - Q1)%float in
  (Q3 + 1.5 * IQR)%float.

(** The row mask [(df['amount'] < lower_bound) | (df['amount'] > upper_bound)]. *)
Definition outside_iqr (transactions : list Transaction) (txn : Transaction) : bool :=
  (Transaction.amount txn <? lower_bound transactions)%float
  || (upper_bound transactions <? Transaction.amount txn)%float.

Definition iqr_anomalies (transactions : list Transaction) : list Transaction :=
  List.filter (outside_iqr transactions) transactions.

Definition iqr_anomaly (transactions : list Transaction) (txn : Transaction)
    : AnomalyResult :=
  AnomalyResult.mk (Transaction.txn_id txn) "statistical"
    (PrimFloat.abs (Transaction.amount txn - median (amounts transactions)))
    true "iqr".

(** [txn_id in [a.transaction_id for a in anomalies]]. *)
Definition already_flagged (anomalies : list AnomalyResult) (txn_id : string) : bool :=
  existsb (fun a => String.eqb txn_id (AnomalyResult.transaction_id a)) anomalies.

(** [[a.transaction_id for a in anomalies]]. *)
Definition flagged_ids (anomalies : list AnomalyResult) : list string :=
  map AnomalyResult.transaction_id anomalies.

(** One iteration of the second loop, with its duplicate check. *)
Definition add_iqr_anomaly (transactions : list Transaction)
    (anomalies : list AnomalyResult) (txn : Transaction) : list AnomalyResult :=
  if already_flagged anomalies (Transaction.txn_id txn) then anomalies
  else anomalies ++ [iqr_anomaly transactions txn].

Definition detect_anomalies_statistical (transactions : list Transaction)
    : list AnomalyResult :=
  if (length transactions <? 5)%nat then []
  else
    let anomalies := map z_score_anomaly (z_anomalies transactions) in
    fold_left (add_iqr_anomaly transactions) (iqr_anomalies transactions) anomalies.

End Statistical.

(** ** Tables *)

Module Import Frame.

(** A pandas column is typed as a whole: a float64 column, where a missing
    cell is nan, or an object column of strings, where a missing cell is
    [None]. *)
Inductive column : Type :=
| FloatColumn (values : list float)
| ObjectColumn (values : list (option string)).

(** A [DataFrame]: [len(df)] rows and the named columns, each of that length. *)
Record DataFrame := mkDataFrame {
  nrows : nat;
  columns : list (string * column) }.

Definition column_length (c : column) : nat :=
  match c with
  | FloatColumn values => length values
  | ObjectColumn values => length values
  end.

(** [df[name]], for [name in df.columns]. *)
Fixpoint get_column (name : string) (cols : list (string * column)) : option column :=
  match cols with
  | [] => None
  | (n, c) :: rest => if String.eqb n name then Some c else get_column name rest
  end.

(** What the parsed value of a date cell is used for. *)
Record Timestamp := mkTimestamp {
  dayofweek : float;
  hour : float }.

End Frame.

(** The library calls whose result is not determined by this repository:
    the date parser of pandas and the estimators of scikit-learn.  [None] is
    the call raising an exception. *)
Record External := mkExternal {
  to_datetime : column -> option (list Timestamp);
  scaler_fit_transform : list (list float) -> option (list (list float));
  iso_forest_fit_predict : list (list float) -> option (list Z);
  iso_forest_decision_function : list (list float) -> option (list float);
  svm_fit_predict : list (list float) -> option (list Z);
  svm_decision_function : list (list float) -> option (list float) }.

(** ** Machine-learning anomaly detection *)

Module Import MachineLearning.

(** The feature rows [amount, day_of_week, hour]; the [except] branch sets
    the two date features to 0 and 12 on every row. *)
Definition features (ext : External) (transactions : list Transaction)
    : list (list float) :=
  match to_datetime ext (ObjectColumn (map (fun txn => Some (Transaction.date txn)) transactions)) with
  | Some stamps =>
      map (fun row => [Transaction.amount row.1; dayofweek row.2; hour row.2])
        (combine transactions stamps)
  | None =>
      map (fun txn => [Transaction.amount txn; 0%float; 12%float]) transactions
  end.

(** [for idx, (prediction, score) in enumerate(zip(iso_predictions, iso_scores))]. *)
Fixpoint iso_forest_loop (transactions : list Transaction) (idx : nat)
    (rows : list (Z * float)) (anomalies : list AnomalyResult)
    : option (list AnomalyResult) :=
  match rows with
  | [] => Some anomalies
  | (prediction, score) :: rest =>
      if (prediction =? -1)%Z then
        match transactions !! idx with
        | Some txn =>
            iso_forest_loop transactions (S idx) rest
              (anomalies ++ [AnomalyResult.mk (Transaction.txn_id txn)
                               "ml_isolation_forest" (PrimFloat.abs score) true
                               "isolation_forest"])
        | None => None
        end
      else iso_forest_loop transactions (S idx) rest anomalies
  end.

(** The same loop for the one-class SVM, with its duplicate check. *)
Fixpoint svm_loop (transactions : list Transaction) (idx : nat)
    (rows : list (Z * float)) (anomalies : list AnomalyResult)
    : option (list AnomalyResult) :=
  match rows with
  | [] => Some anomalies
  | (prediction, score) :: rest =>
      if (prediction =? -1)%Z then
        match transactions !! idx with
        | Some txn =>
            if already_flagged anomalies (Transaction.txn_id txn)
            then svm_loop transactions (S idx) rest anomalies
            else
              svm_loop transactions (S idx) rest
                (anomalies ++ [AnomalyResult.mk (Transaction.txn_id txn)
                                 "ml_one_class_svm" (PrimFloat.abs score) true
                                 "one_class_svm"])
        | None => None
        end
      else svm_loop transactions (S idx) rest anomalies
  end.

Definition detect_anomalies_ml (ext : External) (transactions : list Transaction)
    : option (list AnomalyResult) :=
  if (length transactions <? 10)%nat then Some []
  else
    features_scaled ← scaler_fit_transform ext (features ext transactions);
    iso_predictions ← iso_forest_fit_predict ext features_scaled;
    iso_scores ← iso_forest_decision_function ext features_scaled;
    anomalies ← iso_forest_loop transactions 0 (combine iso_predictions iso_scores) [];
    svm_predictions ← svm_fit_predict ext features_scaled;
    svm_scores ← svm_decision_function ext features_scaled;
    svm_loop transactions 0 (combine svm_predictions svm_scores) anomalies.

End MachineLearning.



(** ** The anomaly detection run *)

(** [all_anomalies = statistical_anomalies + ml_anomalies]. *)
Definition all_anomalies (ext : External) (transactions : list Transaction)
    : option (list AnomalyResult) :=
  let statistical_anomalies := detect_anomalies_statistical transactions in
  ml_anomalies ← detect_anomalies_ml ext transactions;
  Some (statistical_anomalies ++ ml_anomalies).

(** [run_anomaly_detection]: the collection is cleared first (line 458); the
    combined list is stored by one [insert_many], and only if it is not
    empty.  A detector that raises ends the run after the delete. *)
Definition anomaly_detection_writes (ext : External) (db : Database) : list write :=
  DeleteAnomalies
  :: match all_anomalies ext (transactions db) with
     | Some (a :: rest) => [InsertAnomalies (a :: rest)]
     | _ => []
     end.

Definition run_anomaly_detection (ext : External) (db : Database)
    : Database * option nat :=
  (exec (anomaly_detection_writes ext db) db,
   length <$> all_anomalies ext (transactions db)).

(** ** Data quality *)

Module DataQualityReport.
Record t := mk {
  dataset_name : string;
  total_records : nat;
  completeness_score : float;
  consistency_score : float;
  duplicate_count : nat;
  quality_score : float;
  issues : list string }.
End DataQualityReport.
Abbreviation DataQualityReport := DataQualityReport.t.

Module Import Quality.

(** Round half to even to an integer, for a binary64 value. *)
Definition rint (x : float) : float :=
  if (PrimFloat.abs x <? 4503599627370496)%float then
    let y := (PrimFloat.abs x + 4503599627370496 - 4503599627370496)%float in
    if (x <? 0)%float then (- y)%float else y
  else x.

(** [round(x, 2)] as numpy rounds a float64 scalar: scale by [10**2], round
    to an integer, scale back.  The consistency score is a plain Python
    float; on the four values it can take (100, 90, 85 and 75) the builtin
    [round] returns the same value. *)
Definition round2 (x : float) : float :=
  (rint (x * 100) / 100)%float.

(** [df.count()] for one column: the cells that are not missing. *)
Definition count_non_null (c : column) : nat :=
  match c with
  | FloatColumn values => length (List.filter (fun x => negb (PrimFloat.is_nan x)) values)
  | ObjectColumn values => length (List.filter (fun x => match x with Some _ => true | None => false end) values)
  end.

(** [df.count().sum()]. *)
Definition count_sum (df : DataFrame) : nat :=
  fold_right (fun nc acc => count_non_null nc.2 + acc) 0 (columns df).

Inductive cell : Type :=
| FloatCell (x : float)
| ObjectCell (s : option string).

Definition cell_at (i : nat) (c : column) : cell :=
  match c with
  | FloatColumn values => FloatCell (nth i values nan)
  | ObjectColumn values => ObjectCell (nth i values None)
  end.

Definition row_at (df : DataFrame) (i : nat) : list cell :=
  map (fun nc => cell_at i nc.2) (columns df).

(** A cell is missing. *)
Definition null_cell (c : cell) : bool :=
  match c with
  | FloatCell x => PrimFloat.is_nan x
  | ObjectCell None => true
  | ObjectCell (Some _) => false
  end.

(** In a column of four cells, the cell of row [i] is missing and the other
    three are not. *)
Definition one_null_at (i : nat) (c : column) : Prop :=
  column_length c = 4
  ∧ ∀ j, j < 4 → null_cell (cell_at j c) = bool_decide (j = i).

(** The [amount] column, when there is one, is a float64 column. *)
Definition amount_is_numeric (df : DataFrame) : Prop :=
  ∀ c, get_column "amount" (columns df) = Some c → ∃ values, c = FloatColumn values.

(** Two cells hold the same value; two missing cells count as the same. *)
Definition cell_eqb (a b : cell) : bool :=
  match a, b with
  | FloatCell x, FloatCell y =>
      (x =? y)%float || (PrimFloat.is_nan x && PrimFloat.is_nan y)
  | ObjectCell None, ObjectCell None => true
  | ObjectCell (Some s), ObjectCell (Some s') => String.eqb s s'
  | _, _ => false
  end.

Fixpoint row_eqb (r r' : list cell) : bool :=
  match r, r' with
  | [], [] => true
  | a :: r, b :: r' => cell_eqb a b && row_eqb r r'
  | _, _ => false
  end.

(** [df.duplicated().sum()]: the rows equal to an earlier row. *)
Fixpoint count_duplicated (seen rows : list (list cell)) : nat :=
  match rows with
  | [] => 0
  | r :: rest =>
      (if existsb (row_eqb r) seen then 1 else 0) + count_duplicated (seen ++ [r]) rest
  end.

Definition duplicated_sum (df : DataFrame) : nat :=
  count_duplicated [] (map (row_at df) (seq 0 (nrows df))).

(** [(df['amount'] < 0).sum()].  Comparing a string cell with [0] raises
    [TypeError]; a missing cell compares false. *)
Definition negative_amounts (c : column) : option nat :=
  match c with
  | FloatColumn values => Some (length (List.filter (fun x => (x <? 0)%float) values))
  | ObjectColumn values =>
      if existsb (fun x => match x with Some _ => true | None => false end) values
      then None else Some 0
  end.

(** The state of the two consistency checks: [consistency_issues] and
    [consistency_score]. *)
Definition check_amount (df : DataFrame) (st : list string * float)
    : option (list string * float) :=
  match get_column "amount" (columns df) with
  | Some c =>
      n ← negative_amounts c;
      if (0 <? n)%nat
      then Some (st.1 ++ [pretty n +:+ " negative amounts found"], (st.2 - 10)%float)
      else Some st
  | None => Some st
  end.

Definition check_date (ext : External) (df : DataFrame) (st : list string * float)
    : list string * float :=
  match get_column "date" (columns df) with
  | Some c =>
      match to_datetime ext c with
      | Some _ => st
      | None => (st.1 ++ ["Inconsistent date formats"], (st.2 - 15)%float)
      end
  | None => st
  end.

Definition calculate_data_quality (ext : External) (df : DataFrame)
    (dataset_name : string) : option DataQualityReport :=
  let total_records := nrows df in
  let completeness_score :=
    (float_of_nat (count_sum df)
     / float_of_nat (nrows df * length (columns df)) * 100)%float in
  let duplicate_count := duplicated_sum df in
  st ← check_amount df ([], 100%float);
  let '(consistency_issues, consistency_score) := check_date ext df st in
  let quality_score := ((completeness_score + consistency_score) / 2)%float in
  Some (DataQualityReport.mk dataset_name total_records
          (round2 completeness_score) (round2 consistency_score)
          duplicate_count (round2 quality_score) consistency_issues).

End Quality.

(** ** Values near a constant

    What the proofs about a column of equal amounts keep track of: a computed
    value is nan, a zero, or still [==] to the common amount. *)

Module Import Near.

(** nan or a zero of either sign. *)
Definition sf_zero_or_nan (x : spec_float) : Prop :=
  match x with
  | S754_nan | S754_zero _ => True
  | _ => False
  end.

(** nan or [==] to [c]. *)
Definition sf_near (c x : spec_float) : Prop :=
  x = S754_nan ∨ SFeqb x c = true.

(** The same notions on primitive floats. *)
Definition zero_or_nan (x : float) : Prop := sf_zero_or_nan (Prim2SF x).
Definition near (c x : float) : Prop := sf_near (Prim2SF c) (Prim2SF x).

(** Every element of the array is [==] to [c]. *)
Definition constant (c : float) (a : list float) : Prop :=
  Forall (fun x => (x =? c)%float = true) a.

End Near.

(** ** Example data *)

Module Import Examples.

Definition txn_100 : Transaction :=
  Transaction.mk 1 "TXN001" "2024-01-01" 100 "ACC1" "Customer A".

Definition txn_100_bis : Transaction :=
  Transaction.mk 2 "TXN002" "2024-01-01" 100 "ACC1" "Customer B".

Definition gl_debit (oid : N) (gl_id : string) (debit : float) : GeneralLedgerEntry :=
  GeneralLedgerEntry.mk oid gl_id "2024-01-01" debit 0 "ACC1".

Definition old_result : ReconciliationResult :=
  ReconciliationResult.mk "matched" (Some "TXN000") (Some "GL000")
    "ACC0" "2023-12-31" (Some 0%float).

(** Two transactions, no ledger entry, one result of an earlier run. *)
Definition db_two_transactions : Database :=
  mkDatabase [txn_100; txn_100_bis] [] [old_result] [].

Definition txn_amount (oid : N) (txn_id : string) (amount : float) : Transaction :=
  Transaction.mk oid txn_id "2024-01-01" amount "ACC1" "Customer A".

(** Twelve transactions with distinct ids: ten of amount 0, one of 5, one of 1000. *)
Definition twelve_transactions : list Transaction :=
  [txn_amount 0 "T00" 0; txn_amount 1 "T01" 0; txn_amount 2 "T02" 0;
   txn_amount 3 "T03" 0; txn_amount 4 "T04" 0; txn_amount 5 "T05" 0;
   txn_amount 6 "T06" 0; txn_amount 7 "T07" 0; txn_amount 8 "T08" 0;
   txn_amount 9 "T09" 0; txn_amount 10 "T10" 5; txn_amount 11 "T11" 1000].


(** Seven transactions of amount 0.1; the computed mean of the amounts is
    0.09999999999999999. *)
Definition seven_equal_transactions : list Transaction :=
  map (fun i => txn_amount (N.of_nat i) ("T" +:+ pretty i) 0.1) (seq 0 7).

(** Stand-ins for the library calls: the date parser fails, the scaler is the
    identity and both estimators label the rows whose amount exceeds 500. *)
Definition label_large (X : list (list float)) : option (list Z) :=
  Some (map (fun row => if (500 <? nth 0 row 0)%float then (-1)%Z else 1%Z) X).

Definition example_external : External :=
  mkExternal (fun _ => None) (fun X => Some X)
    label_large (fun X => Some (map (fun _ => (-0.25)%float) X))
    label_large (fun X => Some (map (fun _ => (-0.5)%float) X)).

(** A table of four rows and five columns whose second row is missing. *)
Definition one_null_row_frame : DataFrame :=
  mkDataFrame 4
    [("txn_id", ObjectColumn [Some "TXN001"; None; Some "TXN003"; Some "TXN004"]);
     ("date", ObjectColumn [Some "2024-01-15"; None; Some "2024-01-16"; Some "2024-01-17"]);
     ("amount", FloatColumn [1500; nan; -750; 1200]%float);
     ("account_id", ObjectColumn [Some "ACC123"; None; Some "ACC125"; Some "ACC123"]);
     ("counterparty", ObjectColumn [Some "Customer A"; None; Some "Customer C"; Some "Customer D"])].

End Examples.

Set Warnings "-register-all".

(** ** Stored documents *)

Module Import Documents.

Section Values.

(** [datetime] objects, with [datetime.isoformat] and
    [datetime.fromisoformat] ([None] when it raises). *)
Variable datetime : Type.
Variable isoformat : datetime → string.
Variable fromisoformat : string → option datetime.

(** The Python values the two helpers tell apart: a [dict], a [datetime], a
    [str], and the rest, which they pass through (numbers, booleans, [None],
    lists). *)
Inductive value : Type :=
| VDict (items : gmap string value)
| VDatetime (d : datetime)
| VStr (s : string)
| VNone
| VBool (b : bool)
| VInt (n : Z)
| VFloat (x : float)
| VList (elements : list value).

(** [value.isoformat()] when [isinstance(value, datetime)]. *)
Definition to_iso (v : value) : value :=
  match v with
  | VDatetime d => VStr (isoformat d)
  | _ => v
  end.

(** [prepare_for_mongo]: in a [dict], every value that is a [datetime] is
    replaced by its ISO string; the values are not descended into, and
    anything that is not a [dict] is returned as it is.  The [dict] is
    updated in place and returned; the callers pass a fresh [.dict()]. *)
Definition prepare_for_mongo (data : value) : value :=
  match data with
  | VDict items => VDict (to_iso <$> items)
  | _ => data
  end.

(** [parse_from_mongo]: [item.get('created_at')] is looked up on a [dict]
    (anything else has no [get]: [None] is the call raising); a string there
    is replaced by the parsed [datetime], unless parsing raises. *)
Definition parse_from_mongo (item : value) : option value :=
  match item with
  | VDict items =>
      match items !! "created_at" with
      | Some (VStr s) =>
          match fromisoformat s with
          | Some d => Some (VDict (<["created_at" := VDatetime d]> items))
          | None => Some item
          end
      | _ => Some item
      end
  | _ => None
  end.

End Values.

End Documents.

Arguments VDict {datetime} items.
Arguments VDatetime {datetime} d.
Arguments VStr {datetime} s.
Arguments VNone {datetime}.
Arguments VBool {datetime} b.
Arguments VInt {datetime} n.
Arguments VFloat {datetime} x.
Arguments VList {datetime} elements.
Arguments to_iso {datetime} isoformat v.
Arguments prepare_for_mongo {datetime} isoformat data.
Arguments parse_from_mongo {datetime} fromisoformat item.

(** ** Read endpoints *)

Module Import Queries.

(** [if status:] — a parameter that is [None] or the empty string adds no
    condition to [filter_dict]. *)
Definition condition (parameter : option string) : option string :=
  match parameter with
  | Some value => if String.eqb value "" then None else Some value
  | None => None
  end.

(** A document field against the condition on it, if there is one. *)
Definition satisfies (cond : option string) (field : string) : bool :=
  match cond with
  | Some value => String.eqb field value
  | None => true
  end.

(** [get_reconciliation_results]: [find(filter_dict)] on the collection.
    [parse_from_mongo] acts on [created_at] only, which the records leave
    out. *)
Definition get_reconciliation_results (db : Database)
    (status account_id : option string) : list ReconciliationResult :=
  List.filter
    (fun r => satisfies (condition status) (ReconciliationResult.status r)
              && satisfies (condition account_id) (ReconciliationResult.account_id r))
    (reconciliation_results db).

(** [get_anomalies]. *)
Definition get_anomalies (db : Database) (detection_method : option string)
    : list AnomalyResult :=
  List.filter
    (fun a => satisfies (condition detection_method) (AnomalyResult.detection_method a))
    (anomalies db).

End Queries.

(** ** The service state and the dashboard *)

(** The five collections: the four of [Database] and [data_quality], which
    holds the stored quality reports. *)
Record Server := mkServer {
  collections : Database;
  data_quality : list DataQualityReport }.

(** The two Python builtins the dashboard applies to floats, [sum] over the
    stored quality scores and [round(x, 2)].  Neither raises on a float. *)
Record Builtins := mkBuiltins {
  py_sum : list float → float;
  py_round2 : float → float }.

Module DashboardStats.
Record t := mk {
  total_transactions : nat;
  total_gl_entries : nat;
  matched_count : nat;
  unmatched_count : nat;
  anomalies_detected : nat;
  data_quality_score : float;
  reconciliation_accuracy : float }.
End DashboardStats.
Abbreviation DashboardStats := DashboardStats.t.

Module Import Dashboard.

(** [count_documents(filter)]. *)
Definition count_documents {A} (filter : A → bool) (collection : list A) : nat :=
  length (List.filter filter collection).

(** [{"status": {"$in": values}}]. *)
Definition status_in (values : list string) (r : ReconciliationResult) : bool :=
  existsb (String.eqb (ReconciliationResult.status r)) values.

(** [get_dashboard_stats].  The counts are converted to floats where Python
    divides them ([/] on two [int]s), which is exact below [2^53]. *)
Definition get_dashboard_stats (py : Builtins) (srv : Server) : DashboardStats :=
  let db := collections srv in
  let total_transactions := count_documents (fun _ => true) (transactions db) in
  let total_gl_entries := count_documents (fun _ => true) (general_ledger db) in
  let matched_count :=
    count_documents (status_in ["matched"]) (reconciliation_results db) in
  let unmatched_count :=
    count_documents (status_in ["missing_gl"; "missing_transaction"; "amount_mismatch"])
      (reconciliation_results db) in
  let anomalies_detected := count_documents (fun _ => true) (anomalies db) in
  let quality_docs := data_quality srv in
  let data_quality_score :=
    (py_sum py (map DataQualityReport.quality_score quality_docs)
     / float_of_nat (Nat.max (length quality_docs) 1))%float in
  let total_reconciled := matched_count + unmatched_count in
  let reconciliation_accuracy :=
    (float_of_nat matched_count / float_of_nat (Nat.max total_reconciled 1) * 100)%float in
  DashboardStats.mk total_transactions total_gl_entries matched_count unmatched_count
    anomalies_detected (py_round2 py data_quality_score)
    (py_round2 py reconciliation_accuracy).

End Dashboard.

(** ** Uploads *)

(** What an upload takes from outside the repository: [pd.read_csv] on the
    decoded contents ([None] when decoding or parsing raises), [str] of a
    float cell and [float] of a string cell ([None] when it raises). *)
Record Csv := mkCsv {
  read_csv : string → option DataFrame;
  str_float : float → string;
  float_str : string → option float }.

(** What the handler answers: the success body, or one of its two
    [HTTPException(400)]s.  The second wraps every exception raised inside
    the [try], the handler's own missing-columns exception included. *)
Inductive upload_outcome : Type :=
| Uploaded (count : nat) (quality_report : DataQualityReport)
| NotCsv
| ProcessingError.

Module Import Upload.

(** [s.endswith(suffix)]. *)
Definition endswith (s suffix : string) : bool :=
  let n := String.length s in
  let k := String.length suffix in
  (k <=? n)%nat && String.eqb (substring (n - k) k s) suffix.

(** [all(col in df.columns for col in required_columns)]. *)
Definition has_columns (required_columns : list string) (df : DataFrame) : bool :=
  forallb (fun col => match get_column col (columns df) with
                      | Some _ => true
                      | None => false
                      end) required_columns.

(** [row[name]] on row [i] of [df.iterrows()]. *)
Definition row_cell (df : DataFrame) (name : string) (i : nat) : option cell :=
  c ← get_column name (columns df); Some (cell_at i c).

(** [str(cell)]: a string cell is itself, a missing cell is the float nan. *)
Definition cell_str (io : Csv) (c : cell) : string :=
  match c with
  | FloatCell x => str_float io x
  | ObjectCell (Some s) => s
  | ObjectCell None => str_float io nan
  end.

(** [float(cell)]. *)
Definition cell_float (io : Csv) (c : cell) : option float :=
  match c with
  | FloatCell x => Some x
  | ObjectCell (Some s) => float_str io s
  | ObjectCell None => Some nan
  end.

(** The document built from row [i]; [oid] is the [_id] it gets when it is
    inserted. *)
Definition transaction_of_row (io : Csv) (df : DataFrame) (oid : N) (i : nat)
    : option Transaction :=
  txn_id ← row_cell df "txn_id" i;
  date ← row_cell df "date" i;
  amount ← row_cell df "amount" i;
  account_id ← row_cell df "account_id" i;
  counterparty ← row_cell df "counterparty" i;
  amount ← cell_float io amount;
  Some (Transaction.mk oid (cell_str io txn_id) (cell_str io date) amount
          (cell_str io account_id) (cell_str io counterparty)).

Definition gl_entry_of_row (io : Csv) (df : DataFrame) (oid : N) (i : nat)
    : option GeneralLedgerEntry :=
  gl_id ← row_cell df "gl_id" i;
  date ← row_cell df "date" i;
  debit_amount ← row_cell df "debit_amount" i;
  credit_amount ← row_cell df "credit_amount" i;
  account_id ← row_cell df "account_id" i;
  debit_amount ← cell_float io debit_amount;
  credit_amount ← cell_float io credit_amount;
  Some (GeneralLedgerEntry.mk oid (cell_str io gl_id) (cell_str io date)
          debit_amount credit_amount (cell_str io account_id)).

(** [replace_one({"dataset_name": name}, doc, upsert=True)]: the first
    report of that name is replaced; without one the report is inserted. *)
Fixpoint replace_one (name : string) (doc : DataQualityReport)
    (docs : list DataQualityReport) : list DataQualityReport :=
  match docs with
  | [] => [doc]
  | d :: rest =>
      if String.eqb (DataQualityReport.dataset_name d) name then doc :: rest
      else d :: replace_one name doc rest
  end.

Definition set_transactions (transactions : list Transaction) (srv : Server) : Server :=
  let db := collections srv in
  mkServer (mkDatabase transactions (general_ledger db) (reconciliation_results db)
              (anomalies db))
    (data_quality srv).

Definition set_general_ledger (gl_entries : list GeneralLedgerEntry) (srv : Server)
    : Server :=
  let db := collections srv in
  mkServer (mkDatabase (transactions db) gl_entries (reconciliation_results db)
              (anomalies db))
    (data_quality srv).

Definition set_data_quality (docs : list DataQualityReport) (srv : Server) : Server :=
  mkServer (collections srv) docs.

(** [upload_transactions].  [ids i] is the [_id] of the [i]-th inserted
    document.  The collection is cleared before the rows are converted, and
    [insert_many] raises on an empty list. *)
Definition upload_transactions (ext : External) (io : Csv) (ids : nat → N)
    (filename contents : string) (srv : Server) : Server * upload_outcome :=
  if negb (endswith filename ".csv") then (srv, NotCsv)
  else
    match read_csv io contents with
    | None => (srv, ProcessingError)
    | Some df =>
        let required_columns := ["txn_id"; "date"; "amount"; "account_id"; "counterparty"] in
        if negb (has_columns required_columns df) then (srv, ProcessingError)
        else
          let cleared := set_transactions [] srv in
          match mapM (fun i => transaction_of_row io df (ids i) i) (seq 0 (nrows df)) with
          | None => (cleared, ProcessingError)
          | Some [] => (cleared, ProcessingError)
          | Some transactions =>
              let inserted := set_transactions transactions cleared in
              match calculate_data_quality ext df "transactions" with
              | None => (inserted, ProcessingError)
              | Some quality_report =>
                  (set_data_quality
                     (replace_one "transactions" quality_report (data_quality inserted))
                     inserted,
                   Uploaded (length transactions) quality_report)
              end
          end
    end.

(** [upload_general_ledger]. *)
Definition upload_general_ledger (ext : External) (io : Csv) (ids : nat → N)
    (filename contents : string) (srv : Server) : Server * upload_outcome :=
  if negb (endswith filename ".csv") then (srv, NotCsv)
  else
    match read_csv io contents with
    | None => (srv, ProcessingError)
    | Some df =>
        let required_columns :=
          ["gl_id"; "date"; "debit_amount"; "credit_amount"; "account_id"] in
        if negb (has_columns required_columns df) then (srv, ProcessingError)
        else
          let cleared := set_general_ledger [] srv in
          match mapM (fun i => gl_entry_of_row io df (ids i) i) (seq 0 (nrows df)) with
          | None => (cleared, ProcessingError)
          | Some [] => (cleared, ProcessingError)
          | Some gl_entries =>
              let inserted := set_general_ledger gl_entries cleared in
              match calculate_data_quality ext df "general_ledger" with
              | None => (inserted, ProcessingError)
              | Some quality_report =>
                  (set_data_quality
                     (replace_one "general_ledger" quality_report (data_quality inserted))
                     inserted,
                   Uploaded (length gl_entries) quality_report)
              end
          end
    end.

End Upload.

(** ** Predicates of the further properties *)

(** [status in ("matched", "amount_mismatch")], as a test. *)
Definition is_claiming (r : ReconciliationResult) : bool :=
  String.eqb (ReconciliationResult.status r) "matched"
  || String.eqb (ReconciliationResult.status r) "amount_mismatch".

(** The fields a result carries, by status. *)
Definition well_formed_result (r : ReconciliationResult) : Prop :=
  (ReconciliationResult.status r = "matched"
   ∧ is_Some (ReconciliationResult.transaction_id r)
   ∧ is_Some (ReconciliationResult.gl_id r)
   ∧ ReconciliationResult.amount_difference r = Some 0%float)
  ∨ (ReconciliationResult.status r = "amount_mismatch"
     ∧ is_Some (ReconciliationResult.transaction_id r)
     ∧ is_Some (ReconciliationResult.gl_id r)
     ∧ ∃ d, ReconciliationResult.amount_difference r = Some d
            ∧ (abs d <? 0.01)%float = false ∧ (abs d <? 100)%float = true)
  ∨ (ReconciliationResult.status r = "missing_gl"
     ∧ is_Some (ReconciliationResult.transaction_id r)
     ∧ ReconciliationResult.gl_id r = None
     ∧ ReconciliationResult.amount_difference r = None)
  ∨ (ReconciliationResult.status r = "missing_transaction"
     ∧ ReconciliationResult.transaction_id r = None
     ∧ is_Some (ReconciliationResult.gl_id r)
     ∧ ReconciliationResult.amount_difference r = None).

(** What a row of the statistical output is. *)
Definition statistical_row (transactions : list Transaction) (a : AnomalyResult) : Prop :=
  ∃ txn, txn ∈ transactions
    ∧ ((3 <? z_score_of transactions txn)%float = true
        ∧ a = AnomalyResult.mk (Transaction.txn_id txn) "statistical"
                (z_score_of transactions txn) true "z_score"
       ∨ outside_iqr transactions txn = true
         ∧ a = AnomalyResult.mk (Transaction.txn_id txn) "statistical"
                 (PrimFloat.abs (Transaction.amount txn - median (amounts transactions)))
                 true "iqr").

(** The rows the two ML loops build. *)
Definition iso_row (txn : Transaction) (score : float) : AnomalyResult :=
  AnomalyResult.mk (Transaction.txn_id txn) "ml_isolation_forest"
    (PrimFloat.abs score) true "isolation_forest".

Definition svm_row (txn : Transaction) (score : float) : AnomalyResult :=
  AnomalyResult.mk (Transaction.txn_id txn) "ml_one_class_svm"
    (PrimFloat.abs score) true "one_class_svm".

(** Row [idx] of the zipped predictions and scores carries the outlier label. *)
Definition outlier_at (predictions : list Z) (scores : list float) (idx : nat)
    (score : float) : Prop :=
  combine predictions scores !! idx = Some ((-1)%Z, score).

Definition ml_row (transactions : list Transaction) (a : AnomalyResult) : Prop :=
  ∃ txn score, txn ∈ transactions ∧ (a = iso_row txn score ∨ a = svm_row txn score).

(** The number of negative cells the amount check counts, and whether the
    date check fails. *)
Definition negative_count (df : DataFrame) : nat :=
  match get_column "amount" (columns df) with
  | Some (FloatColumn values) => length (List.filter (fun x => (x <? 0)%float) values)
  | _ => 0
  end.

Definition date_fails (ext : External) (df : DataFrame) : bool :=
  match get_column "date" (columns df) with
  | Some c => match to_datetime ext c with Some _ => false | None => true end
  | None => false
  end.

(** The amount column is an object column that holds a string. *)
Definition amount_holds_string (df : DataFrame) : Prop :=
  ∃ values s, get_column "amount" (columns df) = Some (ObjectColumn values)
              ∧ Some s ∈ values.

Definition is_datetime {datetime} (v : value datetime) : bool :=
  match v with VDatetime _ => true | _ => false end.

Definition has_status (s : string) (r : ReconciliationResult) : bool :=
  String.eqb (ReconciliationResult.status r) s.

Definition other_dataset (name : string) (d : DataQualityReport) : bool :=
  negb (String.eqb (DataQualityReport.dataset_name d) name).

(** ** Further example data *)

Definition txn_nan : Transaction :=
  Transaction.mk 20 "TXN_NAN" "2024-01-15" nan "ACC001" "Vendor".

Definition transactions_with_nan : list Transaction :=
  [txn_amount 1 "T1" 100; txn_amount 2 "T2" 110; txn_nan; txn_amount 3 "T3" 105;
   txn_amount 4 "T4" 95; txn_amount 5 "T5" 102; txn_amount 6 "T6" 100000]%float.

(** Stand-ins where the second estimator labels more rows than the first:
    the isolation forest labels the amounts above 500, the one-class SVM the
    amounts above 3. *)
Definition label_above (bound : float) (X : list (list float)) : option (list Z) :=
  Some (map (fun row => if (bound <? nth 0 row 0)%float then (-1)%Z else 1%Z) X).

Definition two_estimators : External :=
  mkExternal (fun _ => None) (fun X => Some X)
    (label_above 500) (fun X => Some (map (fun _ => (-0.25)%float) X))
    (label_above 3) (fun X => Some (map (fun _ => (-0.5)%float) X)).

Definition stored_result : gmap string (value unit) :=
  {[ "status" := VStr "matched"; "created_at" := VDatetime tt;
     "amount_difference" := VFloat 0 ]}.

(** Two rows of transactions, the same with an amount that is no number,
    and one ledger row, with and without a debit that is no number. *)
Definition frame_of_amounts (amount : column) : DataFrame :=
  mkDataFrame 2
    [("txn_id", ObjectColumn [Some "TXN001"; Some "TXN002"]);
     ("date", ObjectColumn [Some "2024-01-15"; Some "2024-01-16"]);
     ("amount", amount);
     ("account_id", ObjectColumn [Some "ACC123"; Some "ACC124"]);
     ("counterparty", ObjectColumn [Some "Customer A"; Some "Customer B"])].

Definition frame_of_debits (debit_amount : column) : DataFrame :=
  mkDataFrame 1
    [("gl_id", ObjectColumn [Some "GL001"]);
     ("date", ObjectColumn [Some "2024-01-15"]);
     ("debit_amount", debit_amount);
     ("credit_amount", FloatColumn [0%float]);
     ("account_id", ObjectColumn [Some "ACC123"])].

(** A stand-in reader that tells the four files apart by their contents. *)
Definition example_csv : Csv :=
  mkCsv
    (fun contents =>
       if String.eqb contents "transactions"
       then Some (frame_of_amounts (FloatColumn [100; 250]%float))
       else if String.eqb contents "transactions, one amount unreadable"
       then Some (frame_of_amounts (ObjectColumn [Some "100"; Some "abc"]))
       else if String.eqb contents "ledger"
       then Some (frame_of_debits (FloatColumn [100%float]))
       else if String.eqb contents "ledger, debit unreadable"
       then Some (frame_of_debits (ObjectColumn [Some "n/a"]))
       else None)
    (fun _ => "nan")
    (fun s => if String.eqb s "100" then Some 100%float else None).

Definition server_two_transactions : Server := mkServer db_two_transactions [].

(** * Binary64 facts

    The primitive operations are specified on [spec_float]; the lemmas are
    proved there first and then carried to [float]. *)

Section SpecFloatFacts.

Variables prec emax : Z.

Lemma SFeqb_finite_inv x s m e :
  SFeqb x (S754_finite s m e) = true → x = S754_finite s m e.
Proof.
  unfold SFeqb. intros Hx.
  destruct x as [sx|sx| |sx mx ex]; simpl in Hx;
    [by destruct s|by destruct sx|done|].
  assert (He : (ex ?= e)%Z = Eq ∧ (mx ?= m)%positive = Eq).
  { destruct sx, s; try done;
      change (IntDef.Z.compare ex e) with (ex ?= e)%Z in Hx;
      change (PosDef.Pos.compare_cont Eq mx m) with (mx ?= m)%positive in Hx;
      destruct (ex ?= e)%Z; try done; destruct (mx ?= m)%positive; done. }
  destruct He as [->%Z.compare_eq ->%Pos.compare_eq].
  destruct sx, s; simpl in Hx; try done.
Qed.

Lemma SFeqb_infinity_inv x s :
  SFeqb x (S754_infinity s) = true → x = S754_infinity s.
Proof.
  unfold SFeqb.
  destruct x as [sx|sx| |sx mx ex]; simpl; try done;
    destruct s; try destruct sx; done.
Qed.

Lemma SFeqb_zero_inv x s :
  SFeqb x (S754_zero s) = true → ∃ s', x = S754_zero s'.
Proof.
  unfold SFeqb.
  destruct x as [sx|sx| |sx mx ex]; simpl; try done;
    [by eexists|destruct sx; done|destruct sx; done].
Qed.

Lemma SFcompare_refl_finite s m e :
  SFcompare (S754_finite s m e) (S754_finite s m e) = Some Eq.
Proof.
  simpl.
  change (IntDef.Z.compare e e) with (e ?= e)%Z.
  change (PosDef.Pos.compare_cont Eq m m) with (m ?= m)%positive.
  rewrite Z.compare_refl, Pos.compare_refl. by destruct s.
Qed.

(** Two values [==] to the same third compare as equal. *)
Lemma SFcompare_eq_eq x y c :
  SFeqb x c = true → SFeqb y c = true → SFcompare x y = Some Eq.
Proof.
  intros Hx Hy. destruct c as [s|s| |s m e].
  - apply SFeqb_zero_inv in Hx as [sx ->], Hy as [sy ->]. done.
  - apply SFeqb_infinity_inv in Hx as ->, Hy as ->. by destruct s.
  - unfold SFeqb in Hx. by destruct x.
  - apply SFeqb_finite_inv in Hx as ->, Hy as ->. apply SFcompare_refl_finite.
Qed.

Lemma sf_near_not_lt c x y :
  SFeqb x c = true → sf_near c y → SFltb x y = false ∧ SFltb y x = false.
Proof.
  intros Hx [->|Hy]; unfold SFltb.
  - split; [by destruct x|done].
  - by rewrite (SFcompare_eq_eq x y c), (SFcompare_eq_eq y x c).
Qed.

Lemma SFsub_near c a b :
  sf_near c a → sf_near c b → sf_zero_or_nan (SFsub prec emax b a).
Proof.
  intros [->|Ha] [->|Hb]; try done; [by destruct b| ].
  destruct c as [s|s| |s m e].
  - apply SFeqb_zero_inv in Ha as [sa ->], Hb as [sb ->]. by destruct sa, sb.
  - apply SFeqb_infinity_inv in Ha as ->, Hb as ->. by destruct s.
  - unfold SFeqb in Ha. by destruct a.
  - apply SFeqb_finite_inv in Ha as ->, Hb as ->. simpl.
    change (IntDef.Z.sub ?u ?u) with (u - u)%Z.
    by rewrite Z.sub_diag.
Qed.

Lemma SFmul_zero_or_nan_l w t :
  sf_zero_or_nan w → sf_zero_or_nan (SFmul prec emax w t).
Proof. destruct w, t; simpl; done. Qed.

Lemma SFmul_zero_or_nan_r w k :
  sf_zero_or_nan w → sf_zero_or_nan (SFmul prec emax k w).
Proof. destruct w, k; simpl; done. Qed.

Lemma sf_near_zero c s s' :
  SFeqb (S754_zero s) c = true → SFeqb (S754_zero s') c = true.
Proof. by destruct c. Qed.

Lemma SFadd_near c a w :
  sf_near c a → sf_zero_or_nan w → sf_near c (SFadd prec emax a w).
Proof.
  intros [->|Ha] Hw; [by left|].
  destruct w as [sw|sw| |sw mw ew]; try done; [|left; by destruct a].
  right. destruct a as [sa|sa| |sa ma ea]; simpl; try done.
  destruct sa, sw; try done; by eapply sf_near_zero.
Qed.

Lemma SFsub_near_zero c a w :
  sf_near c a → sf_zero_or_nan w → sf_near c (SFsub prec emax a w).
Proof.
  intros [->|Ha] Hw; [by left|].
  destruct w as [sw|sw| |sw mw ew]; try done; [|left; by destruct a].
  right. destruct a as [sa|sa| |sa ma ea]; simpl; try done.
  destruct sa, sw; try done; by eapply sf_near_zero.
Qed.

End SpecFloatFacts.

Lemma near_eqb c x : (x =? c)%float = true → near c x.
Proof. intros Hx. right. by rewrite <- FloatAxioms.eqb_spec. Qed.

Lemma near_nan c : near c nan.
Proof. by left. Qed.

Lemma eqb_not_nan c x : (x =? c)%float = true → PrimFloat.is_nan x = false.
Proof.
  intros Hx. unfold PrimFloat.is_nan. apply negb_false_iff.
  rewrite FloatAxioms.eqb_spec in *. unfold SFeqb.
  by rewrite (SFcompare_eq_eq _ _ _ Hx Hx).
Qed.

Lemma eqb_eqb c x y :
  (x =? c)%float = true → (y =? c)%float = true → (x =? y)%float = true.
Proof.
  rewrite !FloatAxioms.eqb_spec. intros Hx Hy. unfold SFeqb.
  by rewrite (SFcompare_eq_eq _ _ _ Hx Hy).
Qed.

Lemma near_not_lt c x y :
  (x =? c)%float = true → near c y →
  (x <? y)%float = false ∧ (y <? x)%float = false.
Proof.
  rewrite FloatAxioms.eqb_spec, !FloatAxioms.ltb_spec. apply sf_near_not_lt.
Qed.

Lemma sub_near c a b : near c a → near c b → zero_or_nan (b - a).
Proof.
  intros Ha Hb. unfold zero_or_nan. rewrite FloatAxioms.sub_spec.
  by eapply SFsub_near.
Qed.

Lemma mul_zero_or_nan_l w t : zero_or_nan w → zero_or_nan (w * t).
Proof.
  intros Hw. unfold zero_or_nan. rewrite FloatAxioms.mul_spec.
  by apply SFmul_zero_or_nan_l.
Qed.

Lemma mul_zero_or_nan_r w k : zero_or_nan w → zero_or_nan (k * w).
Proof.
  intros Hw. unfold zero_or_nan. rewrite FloatAxioms.mul_spec.
  by apply SFmul_zero_or_nan_r.
Qed.

Lemma add_near c a w : near c a → zero_or_nan w → near c (a + w).
Proof.
  intros Ha Hw. unfold near. rewrite FloatAxioms.add_spec. by apply SFadd_near.
Qed.

Lemma sub_near_zero c a w : near c a → zero_or_nan w → near c (a - w).
Proof.
  intros Ha Hw. unfold near. rewrite FloatAxioms.sub_spec. by apply SFsub_near_zero.
Qed.

(** Interpolating between two values near [c] stays near [c], whatever the
    weight. *)
Lemma lerp_near c a b t : near c a → near c b → near c (lerp a b t).
Proof.
  intros Ha Hb. unfold lerp. destruct (0.5 <=? t)%float.
  - apply sub_near_zero; [done|]. apply mul_zero_or_nan_l. by eapply sub_near.
  - apply add_near; [done|]. apply mul_zero_or_nan_l. by eapply sub_near.
Qed.

(** [==] against a finite non-zero constant pins the value down. *)
Lemma float_eqb_finite (x k : float) s m e :
  Prim2SF k = S754_finite s m e → (x =? k)%float = true → x = k.
Proof.
  intros Hk Hx. apply Prim2SF_inj. rewrite Hk.
  apply SFeqb_finite_inv. by rewrite <- Hk, <- FloatAxioms.eqb_spec.
Qed.

(** * Lists *)

Section ListFacts.
Context {A B : Type}.

Lemma combine_map_self (f : A → B) (l : list A) :
  combine l (map f l) = map (fun x => (x, f x)) l.
Proof. induction l as [|x l IH]; simpl; congruence. Qed.

Lemma filter_map_comm (f : A → B) (p : B → bool) (l : list A) :
  List.filter p (map f l) = map f (List.filter (fun x => p (f x)) l).
Proof.
  induction l as [|x l IH]; simpl; [done|].
  destruct (p (f x)); simpl; congruence.
Qed.

Lemma filter_key_none (key : A → string) (k : string) (l : list A) :
  k ∉ map key l → List.filter (fun a => String.eqb (key a) k) l = [].
Proof.
  induction l as [|a l IH]; simpl; [done|].
  rewrite not_elem_of_cons. intros [Hne Hl].
  destruct (String.eqb_spec (key a) k); [congruence|]. by apply IH.
Qed.

(** In a list without duplicate keys, selecting by the key of a member gives
    that member alone. *)
Lemma filter_key_unique (key : A → string) (l : list A) (x : A) :
  NoDup (map key l) → x ∈ l →
  List.filter (fun a => String.eqb (key a) (key x)) l = [x].
Proof.
  induction l as [|a l IH]; simpl; [by rewrite elem_of_nil|].
  rewrite NoDup_cons, elem_of_cons. intros [Ha Hnd] [->|Hx].
  - rewrite String.eqb_refl. f_equal. by apply filter_key_none.
  - destruct (String.eqb_spec (key a) (key x)) as [Heq|Hne]; [|by apply IH].
    exfalso. apply Ha. rewrite Heq. apply list_elem_of_fmap. by exists x.
Qed.


Lemma NoDup_map_inj_on (key : A → string) (l : list A) (x y : A) :
  NoDup (map key l) → x ∈ l → y ∈ l → key x = key y → x = y.
Proof.
  intros Hnd [i Hi]%list_elem_of_lookup [j Hj]%list_elem_of_lookup Heq.
  assert (i = j) as ->; [|congruence].
  eapply NoDup_lookup; [apply Hnd| |]; rewrite list_lookup_fmap.
  - by rewrite Hi.
  - by rewrite Hj, Heq.
Qed.

Lemma take_lookup_split (l : list A) i j x :
  i < j → l !! i = Some x →
  take j l = take i l ++ x :: take (j - S i) (drop (S i) l).
Proof.
  intros Hij Hx.
  rewrite <- (take_drop_middle l i x Hx) at 1.
  assert (Hlen : length (take i l) = i).
  { apply length_take_le. apply lookup_lt_Some in Hx. lia. }
  rewrite take_app_ge by lia. rewrite Hlen.
  replace (j - i) with (S (j - S i)) by lia. done.
Qed.

End ListFacts.

(** * Properties of the reconciliation engine *)

Section MatcherFacts.

Variable gl_entries : list GeneralLedgerEntry.

Lemma scan_skip txn cl gl rest :
  eligible txn cl gl = false →
  scan_gl_entries txn (gl :: rest) cl = scan_gl_entries txn rest cl.
Proof.
  unfold eligible, within_tolerance. simpl.
  destruct (candidate txn gl cl); simpl; [|done].
  destruct (_ <? 0.01)%float; simpl; [done|].
  destruct (_ <? 100)%float; simpl; done.
Qed.

Lemma scan_stop txn cl gl rest :
  eligible txn cl gl = true →
  scan_gl_entries txn (gl :: rest) cl = Some (gl, result_at txn gl).
Proof.
  unfold eligible, within_tolerance, result_at. simpl.
  destruct (candidate txn gl cl); simpl; [|done].
  destruct (_ <? 0.01)%float; simpl; [done|].
  destruct (_ <? 100)%float; simpl; done.
Qed.

Lemma scan_first txn cl l1 gl l2 :
  Forall (fun g0 => eligible txn cl g0 = false) l1 →
  eligible txn cl gl = true →
  scan_gl_entries txn (l1 ++ gl :: l2) cl = Some (gl, result_at txn gl).
Proof.
  induction 1 as [|g0 l1 Hg0 _ IH]; intros Hgl.
  - by apply scan_stop.
  - rewrite <- app_comm_cons, scan_skip by done. by apply IH.
Qed.

Lemma scan_some_inv txn cl l gl r :
  scan_gl_entries txn l cl = Some (gl, r) →
  ∃ l1 l2, l = l1 ++ gl :: l2
    ∧ Forall (fun g0 => eligible txn cl g0 = false) l1
    ∧ eligible txn cl gl = true ∧ r = result_at txn gl.
Proof.
  induction l as [|g0 l IH]; [done|].
  destruct (eligible txn cl g0) eqn:He.
  - rewrite scan_stop by done. intros [= <- <-].
    exists [], l. by repeat split.
  - rewrite scan_skip by done. intros (l1 & l2 & -> & Hl1 & Hgl & Hr)%IH.
    exists (g0 :: l1), l2. repeat split; [|done..]. by constructor.
Qed.

Lemma scan_none txn cl l :
  scan_gl_entries txn l cl = None ↔ Forall (fun g0 => eligible txn cl g0 = false) l.
Proof.
  induction l as [|g0 l IH]; [by split|].
  destruct (eligible txn cl g0) eqn:He.
  - rewrite scan_stop by done. split; [done|]. inversion 1; congruence.
  - rewrite scan_skip by done. rewrite IH. split; [by constructor|by inversion 1].
Qed.

(** The entry a scan stops at was not claimed before. *)
Lemma scan_fresh txn cl l gl r :
  scan_gl_entries txn l cl = Some (gl, r) → GeneralLedgerEntry._id gl ∉ cl.
Proof.
  intros (l1 & l2 & _ & _ & He & _)%scan_some_inv.
  unfold eligible, candidate in He.
  apply andb_prop in He as [He _]. apply andb_prop in He as [_ He].
  apply negb_true_iff, bool_decide_eq_false in He. done.
Qed.

Lemma scan_In txn cl l gl r :
  scan_gl_entries txn l cl = Some (gl, r) → In gl l ∧ r = result_at txn gl.
Proof.
  intros (l1 & l2 & -> & _ & _ & Hr)%scan_some_inv. split; [|done].
  apply in_or_app. right. by left.
Qed.

Lemma process_transaction_results st txn :
  (process_transaction gl_entries st txn).1 = st.1 ++ [result_of gl_entries st txn].
Proof.
  unfold process_transaction, result_of.
  by destruct (scan_gl_entries txn gl_entries st.2) as [[gl r]|].
Qed.

Lemma process_transaction_claimed st txn :
  st.2 ⊆ (process_transaction gl_entries st txn).2.
Proof.
  unfold process_transaction.
  destruct (scan_gl_entries txn gl_entries st.2) as [[gl r]|]; simpl; set_solver.
Qed.

Lemma process_transaction_claims st txn gl r :
  scan_gl_entries txn gl_entries st.2 = Some (gl, r) →
  GeneralLedgerEntry._id gl ∈ (process_transaction gl_entries st txn).2.
Proof. unfold process_transaction. intros ->. simpl. set_solver. Qed.

Lemma transactions_loop_app l1 l2 st :
  transactions_loop gl_entries (l1 ++ l2) st
  = transactions_loop gl_entries l2 (transactions_loop gl_entries l1 st).
Proof. apply fold_left_app. Qed.

Lemma transactions_loop_cons txn l st :
  transactions_loop gl_entries (txn :: l) st
  = transactions_loop gl_entries l (process_transaction gl_entries st txn).
Proof. done. Qed.

Lemma transactions_loop_claimed l st :
  st.2 ⊆ (transactions_loop gl_entries l st).2.
Proof.
  revert st. induction l as [|txn l IH]; intros st; [done|].
  rewrite transactions_loop_cons. etrans; [|apply IH].
  apply process_transaction_claimed.
Qed.

(** The first loop appends one result per transaction, in order. *)
Lemma transactions_loop_results l st :
  ∃ rs, (transactions_loop gl_entries l st).1 = st.1 ++ rs ∧ length rs = length l.
Proof.
  revert st. induction l as [|txn l IH]; intros st.
  - exists []. by rewrite app_nil_r.
  - rewrite transactions_loop_cons.
    destruct (IH (process_transaction gl_entries st txn)) as (rs & -> & Hlen).
    rewrite process_transaction_results, <- app_assoc.
    eexists. split; [done|]. simpl. by rewrite Hlen.
Qed.

Lemma transactions_loop_length l :
  length (transactions_loop gl_entries l ([], ∅)).1 = length l.
Proof. destruct (transactions_loop_results l ([], ∅)) as (rs & -> & Hlen). done. Qed.

(** The result of the transaction that follows [before]. *)
Lemma transactions_loop_lookup before txn after :
  (transactions_loop gl_entries (before ++ txn :: after) ([], ∅)).1 !! length before
  = Some (result_of gl_entries (transactions_loop gl_entries before ([], ∅)) txn).
Proof.
  rewrite transactions_loop_app, transactions_loop_cons.
  destruct (transactions_loop_results after
    (process_transaction gl_entries (transactions_loop gl_entries before ([], ∅)) txn))
    as (rs & -> & _).
  rewrite process_transaction_results, <- app_assoc.
  rewrite <- (transactions_loop_length before). simpl.
  apply list_lookup_middle. done.
Qed.

Lemma reconcile_results_lookup before txn after :
  reconcile_results (before ++ txn :: after) gl_entries !! length before
  = Some (result_of gl_entries (transactions_loop gl_entries before ([], ∅)) txn).
Proof.
  unfold reconcile_results. rewrite lookup_app_l.
  - apply transactions_loop_lookup.
  - rewrite transactions_loop_length, length_app. simpl. lia.
Qed.

End MatcherFacts.

Lemma result_of_verdict gls st txn : transaction_verdict txn (result_of gls st txn).
Proof.
  unfold result_of.
  destruct (scan_gl_entries txn gls st.2) as [[gl r]|] eqn:Hs.
  - apply scan_In in Hs as [_ ->]. unfold result_at.
    destruct (_ <? 0.01)%float; repeat split; simpl; auto.
  - repeat split; simpl; auto.
Qed.

Lemma transactions_loop_verdicts gls l st :
  ∃ rs, (transactions_loop gls l st).1 = st.1 ++ rs ∧ Forall2 transaction_verdict l rs.
Proof.
  revert st. induction l as [|txn l IH]; intros st.
  - exists []. split; [by rewrite app_nil_r|constructor].
  - rewrite transactions_loop_cons.
    destruct (IH (process_transaction gls st txn)) as (rs & -> & Hrs).
    rewrite process_transaction_results, <- app_assoc.
    eexists. split; [done|]. constructor; [apply result_of_verdict|done].
Qed.


Lemma missing_transactions_status gls cl r :
  r ∈ missing_transactions gls cl → ReconciliationResult.status r = "missing_transaction".
Proof.
  unfold missing_transactions. by intros (gl & -> & _)%list_elem_of_fmap.
Qed.

(** A claiming result is the one the scan of its transaction stopped with. *)
Lemma reconcile_results_claiming transactions gl_entries i r :
  reconcile_results transactions gl_entries !! i = Some r → claiming r →
  ∃ txn gl,
    transactions !! i = Some txn
    ∧ scan_gl_entries txn gl_entries (claimed_gl_ids (take i transactions) gl_entries)
      = Some (gl, r).
Proof.
  intros Hr Hc.
  destruct (transactions !! i) as [txn|] eqn:Htxn.
  - exists txn.
    pose proof (take_drop_middle _ _ _ Htxn) as Hsplit.
    assert (Hlen : length (take i transactions) = i).
    { apply length_take_le. apply lookup_lt_Some in Htxn. lia. }
    rewrite <- Hsplit, <- Hlen in Hr at 1.
    rewrite reconcile_results_lookup in Hr. injection Hr as <-.
    unfold result_of in *. fold (claimed_gl_ids (take i transactions) gl_entries) in *.
    destruct (scan_gl_entries txn gl_entries _) as [[gl r]|]; [by exists gl|].
    destruct Hc as [Hc|Hc]; discriminate Hc.
  - exfalso. apply lookup_ge_None in Htxn.
    unfold reconcile_results in Hr. rewrite lookup_app_r in Hr
      by (rewrite transactions_loop_length; lia).
    apply list_elem_of_lookup_2, missing_transactions_status in Hr.
    destruct Hc as [Hc|Hc]; congruence.
Qed.

(** A later scan never stops at an entry an earlier scan stopped at. *)
Lemma later_scan_distinct before txn between txn' gl_entries gl gl' r r' :
  scan_gl_entries txn gl_entries (claimed_gl_ids before gl_entries) = Some (gl, r) →
  scan_gl_entries txn' gl_entries
    (claimed_gl_ids (before ++ txn :: between) gl_entries) = Some (gl', r') →
  GeneralLedgerEntry._id gl ≠ GeneralLedgerEntry._id gl'.
Proof.
  unfold claimed_gl_ids. intros Hs Hs' Heq.
  apply scan_fresh in Hs'. apply Hs'. rewrite <- Heq.
  rewrite transactions_loop_app, transactions_loop_cons.
  apply transactions_loop_claimed. by eapply process_transaction_claims.
Qed.

Lemma result_at_gl_id txn gl :
  ReconciliationResult.gl_id (result_at txn gl) = Some (GeneralLedgerEntry.gl_id gl).
Proof. unfold result_at. by destruct (_ <? 0.01)%float. Qed.

Lemma claiming_results_distinct transactions gl_entries i j r r' :
  NoDup (map GeneralLedgerEntry.gl_id gl_entries) → i < j →
  reconcile_results transactions gl_entries !! i = Some r →
  reconcile_results transactions gl_entries !! j = Some r' →
  claiming r → claiming r' →
  ReconciliationResult.gl_id r ≠ ReconciliationResult.gl_id r'.
Proof.
  intros Hnd Hij Hr Hr' Hc Hc'.
  destruct (reconcile_results_claiming _ _ _ _ Hr Hc) as (txn & gl & Htxn & Hs).
  destruct (reconcile_results_claiming _ _ _ _ Hr' Hc') as (txn' & gl' & Htxn' & Hs').
  rewrite (take_lookup_split transactions i j txn Hij Htxn) in Hs'.
  pose proof (later_scan_distinct _ _ _ _ _ _ _ _ _ Hs Hs') as Hne.
  apply scan_In in Hs as [Hin ->], Hs' as [Hin' ->].
  rewrite !result_at_gl_id. intros [= Heq]. apply Hne. f_equal.
  apply list_elem_of_In in Hin, Hin'.
  by apply (NoDup_map_inj_on GeneralLedgerEntry.gl_id gl_entries).
Qed.

(** C4 (claim exclusivity).  Within one run, when the scan of a transaction
    stops at the ledger entry [gl] and the scan of a later transaction stops
    at [gl'], the two are different documents: an entry claimed once is not
    claimed again; the results built at the two entries are the ones emitted
    at the positions of the two transactions.  Read on the results alone:
    when the ledger ids are pairwise distinct, no two results of status
    matched or amount_mismatch name the same ledger id. *)
Theorem claim_exclusivity (transactions : list Transaction)
    (gl_entries : list GeneralLedgerEntry) :
  (∀ before txn between txn' after gl gl' r r',
     transactions = before ++ txn :: between ++ txn' :: after →
     scan_gl_entries txn gl_entries (claimed_gl_ids before gl_entries) = Some (gl, r) →
     scan_gl_entries txn' gl_entries
       (claimed_gl_ids (before ++ txn :: between) gl_entries) = Some (gl', r') →
     reconcile_results transactions gl_entries !! length before = Some r
     ∧ reconcile_results transactions gl_entries
         !! (length before + 1 + length between) = Some r'
     ∧ GeneralLedgerEntry._id gl ≠ GeneralLedgerEntry._id gl')
  ∧ (NoDup (map GeneralLedgerEntry.gl_id gl_entries) →
     ∀ i j r r', i ≠ j →
       reconcile_results transactions gl_entries !! i = Some r →
       reconcile_results transactions gl_entries !! j = Some r' →
       claiming r → claiming r' →
       ReconciliationResult.gl_id r ≠ ReconciliationResult.gl_id r').
Proof.
  split.
  - intros before txn between txn' after gl gl' r r' -> Hs Hs'.
    split; [|split].
    + rewrite reconcile_results_lookup. unfold result_of.
      fold (claimed_gl_ids before gl_entries). by rewrite Hs.
    + replace (before ++ txn :: between ++ txn' :: after)
        with ((before ++ txn :: between) ++ txn' :: after) by by rewrite <- app_assoc.
      replace (length before + 1 + length between) with (length (before ++ txn :: between))
        by (rewrite length_app; simpl; lia).
      rewrite reconcile_results_lookup. unfold result_of.
      fold (claimed_gl_ids (before ++ txn :: between) gl_entries). by rewrite Hs'.
    + by eapply later_scan_distinct.
  - intros Hnd i j r r' Hij Hr Hr' Hc Hc'.
    destruct (Nat.lt_total i j) as [Hlt|[->|Hlt]]; [|done|].
    + by eapply claiming_results_distinct.
    + intros Heq. by eapply (claiming_results_distinct _ _ j i r' r).
Qed.

Lemma candidate_fresh txn gl :
  GeneralLedgerEntry.account_id gl = Transaction.account_id txn →
  GeneralLedgerEntry.date gl = Transaction.date txn →
  candidate txn gl ∅ = true.
Proof.
  intros Ha Hd. unfold candidate. rewrite Ha, Hd, !String.eqb_refl. simpl.
  apply negb_true_iff, bool_decide_eq_false. set_solver.
Qed.

(** C2 (mismatch boundary).  For one transaction and one ledger entry of the
    same account and date: when [|net - amount|] is 99.99 the run emits the
    single result amount_mismatch, whose amount_difference is the signed
    [net - amount]; when it is 100 the run emits missing_gl for the
    transaction (no ledger id, no amount_difference) and missing_transaction
    for the ledger entry.  The test against 100 is strict. *)
Theorem mismatch_boundary (txn : Transaction) (gl : GeneralLedgerEntry) :
  GeneralLedgerEntry.account_id gl = Transaction.account_id txn →
  GeneralLedgerEntry.date gl = Transaction.date txn →
  ((abs (gl_amount gl - Transaction.amount txn) =? 99.99)%float = true →
   reconcile_results [txn] [gl]
   = [ReconciliationResult.mk "amount_mismatch"
        (Some (Transaction.txn_id txn)) (Some (GeneralLedgerEntry.gl_id gl))
        (Transaction.account_id txn) (Transaction.date txn)
        (Some (gl_amount gl - Transaction.amount txn)%float)])
  ∧ ((abs (gl_amount gl - Transaction.amount txn) =? 100)%float = true →
     reconcile_results [txn] [gl]
     = [ReconciliationResult.mk "missing_gl"
          (Some (Transaction.txn_id txn)) None
          (Transaction.account_id txn) (Transaction.date txn) None;
        ReconciliationResult.mk "missing_transaction"
          None (Some (GeneralLedgerEntry.gl_id gl))
          (GeneralLedgerEntry.account_id gl) (GeneralLedgerEntry.date gl) None]).
Proof.
  intros Ha Hd. pose proof (candidate_fresh txn gl Ha Hd) as Hc.
  unfold reconcile_results, transactions_loop, process_transaction, missing_transactions.
  split; intros Hx; simpl; rewrite Hc.
  - rewrite (float_eqb_finite _ 99.99 _ _ _ ltac:(vm_compute; reflexivity) Hx).
    simpl.
    unfold unclaimed. rewrite bool_decide_eq_true_2 by set_solver. done.
  - rewrite (float_eqb_finite _ 100 _ _ _ ltac:(vm_compute; reflexivity) Hx).
    simpl.
    unfold unclaimed. rewrite bool_decide_eq_false_2 by set_solver. done.
Qed.

(** C1, amended (matching correctness).  Let [gl] be the first ledger entry,
    in scan order, that is unclaimed when [txn] is processed, shares its
    account and date and has [|net - amount| < 100]; if moreover
    [|net - amount| < 0.01], the result emitted for [txn] is matched, names
    [gl] and has amount_difference exactly 0.0; [gl] is claimed, gets no
    missing_transaction result and no later transaction of the run stops at
    it. *)
Theorem matched_first_eligible (before : list Transaction) (txn : Transaction)
    (after : list Transaction) (skipped : list GeneralLedgerEntry)
    (gl : GeneralLedgerEntry) (rest : list GeneralLedgerEntry) :
  let gl_entries := skipped ++ gl :: rest in
  let claimed := claimed_gl_ids before gl_entries in
  candidate txn gl claimed = true →
  (abs (gl_amount gl - Transaction.amount txn) <? 0.01)%float = true →
  Forall (fun g0 => eligible txn claimed g0 = false) skipped →
  reconcile_results (before ++ txn :: after) gl_entries !! length before
  = Some (ReconciliationResult.mk "matched"
            (Some (Transaction.txn_id txn)) (Some (GeneralLedgerEntry.gl_id gl))
            (Transaction.account_id txn) (Transaction.date txn) (Some 0%float))
  ∧ GeneralLedgerEntry._id gl ∈ claimed_gl_ids (before ++ txn :: after) gl_entries
  ∧ unclaimed (claimed_gl_ids (before ++ txn :: after) gl_entries) gl = false
  ∧ ∀ between txn' after' gl' r',
      after = between ++ txn' :: after' →
      scan_gl_entries txn' gl_entries
        (claimed_gl_ids (before ++ txn :: between) gl_entries) = Some (gl', r') →
      GeneralLedgerEntry._id gl' ≠ GeneralLedgerEntry._id gl.
Proof.
  intros gl_entries claimed Hc Hd Hskip.
  assert (Hs : scan_gl_entries txn gl_entries claimed = Some (gl, matched_result txn gl)).
  { unfold gl_entries. rewrite (scan_first txn claimed skipped gl rest Hskip).
    - unfold result_at. by rewrite Hd.
    - unfold eligible, within_tolerance. by rewrite Hc, Hd. }
  assert (Hin : ∀ l, GeneralLedgerEntry._id gl ∈ claimed_gl_ids (before ++ txn :: l) gl_entries).
  { intros l. unfold claimed_gl_ids.
    rewrite transactions_loop_app, transactions_loop_cons.
    apply transactions_loop_claimed. by eapply process_transaction_claims. }
  split; [|split; [|split]].
  - rewrite reconcile_results_lookup. unfold result_of.
    fold (claimed_gl_ids before gl_entries). fold claimed. by rewrite Hs.
  - apply Hin.
  - unfold unclaimed. by rewrite bool_decide_eq_true_2.
  - intros between txn' after' gl' r' _ Hs' Heq.
    apply scan_fresh in Hs'. apply Hs'. rewrite Heq. apply Hin.
Qed.

Lemma matched_first_eligible_witness :
  reconcile_results [txn_100_bis; txn_100]
    [gl_debit 10 "GL001" 100; gl_debit 11 "GL002" 100.005] !! 1%nat
  = Some (ReconciliationResult.mk "matched" (Some "TXN001") (Some "GL002")
            "ACC1" "2024-01-01" (Some 0%float)).
Proof.
  apply (matched_first_eligible [txn_100_bis] txn_100 []
           [gl_debit 10 "GL001" 100] (gl_debit 11 "GL002" 100.005) []).
  - vm_compute. reflexivity.
  - vm_compute. reflexivity.
  - repeat constructor.
Defined.

(** C1 as stated fails: here the second ledger entry is unclaimed, shares the
    account and date of the transaction and has the same amount, yet the
    transaction is paired with the first entry (150 against 100, an
    amount_mismatch) and the second entry is reported missing_transaction. *)
Lemma matched_not_first_counterexample :
  candidate txn_100 (gl_debit 11 "GL002" 100) ∅ = true
  ∧ (abs (gl_amount (gl_debit 11 "GL002" 100) - Transaction.amount txn_100) <? 0.01)%float = true
  ∧ reconcile_results [txn_100] [gl_debit 10 "GL001" 150; gl_debit 11 "GL002" 100]
    = [amount_mismatch_result txn_100 (gl_debit 10 "GL001" 150);
       missing_transaction_result (gl_debit 11 "GL002" 100)]
  ∧ ¬ In (matched_result txn_100 (gl_debit 11 "GL002" 100))
        (reconcile_results [txn_100] [gl_debit 10 "GL001" 150; gl_debit 11 "GL002" 100]).
Proof.
  split; [vm_compute; reflexivity|]. split; [vm_compute; reflexivity|].
  assert (H : reconcile_results [txn_100] [gl_debit 10 "GL001" 150; gl_debit 11 "GL002" 100]
    = [amount_mismatch_result txn_100 (gl_debit 10 "GL001" 150);
       missing_transaction_result (gl_debit 11 "GL002" 100)]) by (vm_compute; reflexivity).
  split; [exact H|]. rewrite H. intros [Hin|[Hin|[]]]; discriminate Hin.
Qed.

Lemma mismatch_boundary_witness :
  reconcile_results [Transaction.mk 1 "TXN001" "2024-01-01" 0 "ACC1" "Customer A"]
    [gl_debit 10 "GL001" 99.99]
  = [ReconciliationResult.mk "amount_mismatch" (Some "TXN001") (Some "GL001")
       "ACC1" "2024-01-01" (Some 99.99%float)]
  ∧ reconcile_results [txn_100] [gl_debit 10 "GL001" 200]
    = [ReconciliationResult.mk "missing_gl" (Some "TXN001") None "ACC1" "2024-01-01" None;
       ReconciliationResult.mk "missing_transaction" None (Some "GL001")
         "ACC1" "2024-01-01" None].
Proof.
  split.
  - apply (mismatch_boundary (Transaction.mk 1 "TXN001" "2024-01-01" 0 "ACC1" "Customer A")
             (gl_debit 10 "GL001" 99.99)); reflexivity.
  - apply (mismatch_boundary txn_100 (gl_debit 10 "GL001" 200)); reflexivity.
Defined.

Lemma claim_exclusivity_witness :
  GeneralLedgerEntry._id (gl_debit 10 "GL001" 100)
  ≠ GeneralLedgerEntry._id (gl_debit 11 "GL002" 130)
  ∧ ReconciliationResult.gl_id (matched_result txn_100 (gl_debit 10 "GL001" 100))
    ≠ ReconciliationResult.gl_id
        (amount_mismatch_result txn_100_bis (gl_debit 11 "GL002" 130)).
Proof.
  destruct (claim_exclusivity [txn_100; txn_100_bis]
              [gl_debit 10 "GL001" 100; gl_debit 11 "GL002" 130]) as [Hscan Hres].
  split.
  - apply (Hscan [] txn_100 [] txn_100_bis []
             (gl_debit 10 "GL001" 100) (gl_debit 11 "GL002" 130)
             (matched_result txn_100 (gl_debit 10 "GL001" 100))
             (amount_mismatch_result txn_100_bis (gl_debit 11 "GL002" 130)));
      [reflexivity|vm_compute; reflexivity|vm_compute; reflexivity].
  - apply (Hres ltac:(apply (bool_decide_unpack _); vm_compute; exact I) 0%nat 1%nat);
      [lia|vm_compute; reflexivity|vm_compute; reflexivity|by left|by right].
Defined.

(** * The stored collections *)

Lemma exec_inserts rs db :
  reconciliation_results (exec (map InsertReconciliationResult rs) db)
  = reconciliation_results db ++ rs.
Proof.
  revert db. induction rs as [|r rs IH]; intros db; simpl.
  - by rewrite app_nil_r.
  - unfold exec in *. simpl. rewrite IH. simpl. by rewrite <- app_assoc.
Qed.

(** C5 as stated fails: a reconciliation run that stops after two of its
    writes leaves one of its two results in the collection, which is neither
    the previous result set nor the full new one. *)
Lemma replacement_not_atomic_counterexample :
  let db := db_two_transactions in
  let seen := reconciliation_results (interrupted 2 (reconcile_writes db) db) in
  seen = [missing_gl_result txn_100]
  ∧ seen ≠ reconciliation_results db
  ∧ seen ≠ reconcile_results (transactions db) (general_ledger db).
Proof. vm_compute. repeat split; discriminate. Qed.

(** C5, amended (result replacement).  A run that completes leaves exactly
    its own result set in the collection.  The previous set survives only a
    failure before the first write, which is the delete: a reconciliation run
    that stops after [k + 1] writes leaves the first [k] of its results, and
    an anomaly run that stops after its delete, or whose detector raises,
    leaves the collection empty; otherwise the anomaly collection holds the
    whole merged list, stored by one insert. *)
Theorem replacement_after_delete (ext : External) (db : Database) (k : nat) :
  let results := reconcile_results (transactions db) (general_ledger db) in
  reconciliation_results (reconcile_transactions db).1 = results
  ∧ reconciliation_results (interrupted 0 (reconcile_writes db) db)
    = reconciliation_results db
  ∧ reconciliation_results (interrupted (S k) (reconcile_writes db) db)
    = firstn k results
  ∧ anomalies (interrupted 0 (anomaly_detection_writes ext db) db) = anomalies db
  ∧ anomalies (run_anomaly_detection ext db).1
    = default [] (all_anomalies ext (transactions db))
  ∧ (anomalies (interrupted (S k) (anomaly_detection_writes ext db) db) = []
     ∨ all_anomalies ext (transactions db)
       = Some (anomalies (interrupted (S k) (anomaly_detection_writes ext db) db))).
Proof.
  intros results.
  unfold reconcile_transactions, run_anomaly_detection, interrupted,
    reconcile_writes, anomaly_detection_writes.
  fold results. repeat split.
  - unfold exec. simpl. fold (exec (map InsertReconciliationResult results)).
    by rewrite exec_inserts.
  - simpl. rewrite firstn_map.
    unfold exec. simpl. fold (exec (map InsertReconciliationResult (take k results))).
    by rewrite exec_inserts.
  - destruct (all_anomalies ext (transactions db)) as [[|a rest]|]; done.
  - destruct (all_anomalies ext (transactions db)) as [[|a rest]|]; simpl;
      [left|destruct k as [|k]; [left|right; destruct k]|left];
      simpl; rewrite ?take_nil; done.
Qed.

(** C8 (insufficient data).  With fewer than 5 transactions the statistical
    detector returns the empty list; with fewer than 10 the ML detector
    returns the empty list without calling any estimator, so without
    raising. *)
Theorem insufficient_data (ext : External) (transactions : list Transaction) :
  (length transactions < 5 → detect_anomalies_statistical transactions = [])
  ∧ (length transactions < 10 → detect_anomalies_ml ext transactions = Some []).
Proof.
  split; intros Hlen.
  - unfold detect_anomalies_statistical.
    by rewrite (proj2 (Nat.ltb_lt _ _) Hlen).
  - unfold detect_anomalies_ml.
    by rewrite (proj2 (Nat.ltb_lt _ _) Hlen).
Qed.

Lemma insufficient_data_witness :
  detect_anomalies_statistical [txn_100; txn_100_bis] = []
  ∧ detect_anomalies_ml example_external [txn_100; txn_100_bis] = Some [].
Proof.
  destruct (insufficient_data example_external [txn_100; txn_100_bis]) as [Hs Hml].
  split; [apply Hs|apply Hml]; simpl; lia.
Defined.

(** * Statistical detection *)

Lemma already_flagged_spec anomalies txn_id :
  already_flagged anomalies txn_id = true ↔ txn_id ∈ flagged_ids anomalies.
Proof.
  unfold already_flagged, flagged_ids. rewrite existsb_exists. split.
  - intros (a & Hin & ->%String.eqb_eq). apply list_elem_of_fmap.
    exists a. split; [done|]. by apply list_elem_of_In.
  - intros (a & -> & Hin)%list_elem_of_fmap. exists a.
    split; [by apply list_elem_of_In|apply String.eqb_refl].
Qed.

(** [z_anomalies] row by row. *)
Lemma z_anomalies_filter transactions :
  z_anomalies transactions
  = map (fun txn => (txn, z_score_of transactions txn))
      (List.filter (fun txn => (3 <? z_score_of transactions txn)%float) transactions).
Proof.
  unfold z_anomalies, z_scores, zscore, amounts.
  rewrite !map_map. fold (z_score_of transactions).
  rewrite (combine_map_self (z_score_of transactions)).
  by rewrite filter_map_comm.
Qed.


Lemma z_score_anomalies_map transactions :
  map z_score_anomaly (z_anomalies transactions)
  = map (fun txn => AnomalyResult.mk (Transaction.txn_id txn) "statistical"
                      (z_score_of transactions txn) true "z_score")
      (List.filter (fun txn => (3 <? z_score_of transactions txn)%float) transactions).
Proof. rewrite z_anomalies_filter, map_map. done. Qed.

Lemma elem_of_filter_bool {A} (p : A → bool) (l : list A) (x : A) :
  x ∈ List.filter p l ↔ x ∈ l ∧ p x = true.
Proof. rewrite !list_elem_of_In. apply filter_In. Qed.




(** * The merged output *)





(** The isolation-forest loop appends one row per outlier label, in the
    order of the transactions. *)
Lemma iso_forest_loop_spec transactions rows idx anomalies out :
  iso_forest_loop transactions idx rows anomalies = Some out →
  ∃ added, out = anomalies ++ added
    ∧ flagged_ids added `sublist_of` map Transaction.txn_id (drop idx transactions)
    ∧ ∀ j score, rows !! j = Some ((-1)%Z, score) →
        ∃ txn, transactions !! (idx + j) = Some txn
               ∧ Transaction.txn_id txn ∈ flagged_ids added.
Proof.
  revert idx anomalies out.
  induction rows as [|[prediction score] rows IH]; intros idx anomalies out; simpl.
  { intros [= <-]. exists []. rewrite app_nil_r. split; [done|].
    split; [apply sublist_nil_l|]. intros j s. by rewrite lookup_nil. }
  destruct (Z.eqb_spec prediction (-1)) as [->|Hne].
  - destruct (transactions !! idx) as [txn|] eqn:Htxn; [|done].
    intros (added & -> & Hsub & Hrows)%IH.
    eexists (_ :: added). rewrite <- app_assoc. split; [done|]. split.
    + rewrite (drop_S _ _ _ Htxn). simpl. by apply sublist_skip.
    + intros [|j] s Hj; simpl in Hj.
      * exists txn. rewrite Nat.add_0_r. split; [done|]. simpl. by left.
      * destruct (Hrows j s Hj) as (t & Ht & Hin). exists t.
        replace (idx + S j) with (S idx + j) by lia. split; [done|]. by right.
  - intros (added & -> & Hsub & Hrows)%IH.
    exists added. split; [done|]. split.
    + etrans; [apply Hsub|]. apply (fmap_sublist Transaction.txn_id).
      destruct (transactions !! idx) as [txn|] eqn:Htxn.
      * rewrite (drop_S _ _ _ Htxn). by apply sublist_cons.
      * apply lookup_ge_None in Htxn. rewrite !drop_ge by lia. done.
    + intros [|j] s Hj; simpl in Hj; [congruence|].
      destruct (Hrows j s Hj) as (t & Ht & Hin). exists t.
      replace (idx + S j) with (S idx + j) by lia. by split.
Qed.

(** The one-class-SVM loop appends too, never an id that is present. *)
Lemma svm_loop_spec transactions rows idx anomalies out :
  svm_loop transactions idx rows anomalies = Some out →
  (∃ added, out = anomalies ++ added)
  ∧ (NoDup (flagged_ids anomalies) → NoDup (flagged_ids out))
  ∧ ∀ j score, rows !! j = Some ((-1)%Z, score) →
      ∃ txn, transactions !! (idx + j) = Some txn
             ∧ Transaction.txn_id txn ∈ flagged_ids out.
Proof.
  revert idx anomalies out.
  induction rows as [|[prediction score] rows IH]; intros idx anomalies out; simpl.
  { intros [= <-]. split; [exists []; by rewrite app_nil_r|].
    split; [done|]. intros j s. by rewrite lookup_nil. }
  destruct (Z.eqb_spec prediction (-1)) as [->|Hne].
  - destruct (transactions !! idx) as [txn|] eqn:Htxn; [|done].
    destruct (already_flagged anomalies (Transaction.txn_id txn)) eqn:Hf.
    + intros Hout. destruct (IH _ _ _ Hout) as ([added ->] & Hnd & Hrows).
      split; [by exists added|]. split; [done|].
      intros [|j] s Hj; simpl in Hj.
      * exists txn. rewrite Nat.add_0_r. split; [done|].
        unfold flagged_ids. rewrite map_app. apply elem_of_app. left.
        by apply already_flagged_spec.
      * destruct (Hrows j s Hj) as (t & Ht & Hin). exists t.
        replace (idx + S j) with (S idx + j) by lia. by split.
    + intros Hout. destruct (IH _ _ _ Hout) as ([added ->] & Hnd & Hrows).
      rewrite <- app_assoc in *. split; [by eexists|]. split.
      * intros Hnd0. apply Hnd. unfold flagged_ids. rewrite map_app.
        apply NoDup_app. split; [done|]. split; [|apply NoDup_singleton].
        intros id Hid ->%list_elem_of_singleton.
        apply already_flagged_spec in Hid. simpl in Hid. congruence.
      * intros [|j] s Hj; simpl in Hj.
        -- exists txn. rewrite Nat.add_0_r. split; [done|].
           unfold flagged_ids. rewrite !map_app, !elem_of_app. right. left.
           simpl. by left.
        -- destruct (Hrows j s Hj) as (t & Ht & Hin). exists t.
           replace (idx + S j) with (S idx + j) by lia. by split.
  - intros Hout. destruct (IH _ _ _ Hout) as (Hadded & Hnd & Hrows).
    split; [done|]. split; [done|].
    intros [|j] s Hj; simpl in Hj; [congruence|].
    destruct (Hrows j s Hj) as (t & Ht & Hin). exists t.
    replace (idx + S j) with (S idx + j) by lia. by split.
Qed.


(** What a successful run of the ML detector on ten or more rows went through. *)
Lemma detect_anomalies_ml_inv ext transactions ml_anomalies :
  10 ≤ length transactions →
  detect_anomalies_ml ext transactions = Some ml_anomalies →
  ∃ features_scaled iso_predictions iso_scores anomalies svm_predictions svm_scores,
    scaler_fit_transform ext (features ext transactions) = Some features_scaled
    ∧ iso_forest_fit_predict ext features_scaled = Some iso_predictions
    ∧ iso_forest_decision_function ext features_scaled = Some iso_scores
    ∧ iso_forest_loop transactions 0 (combine iso_predictions iso_scores) [] = Some anomalies
    ∧ svm_fit_predict ext features_scaled = Some svm_predictions
    ∧ svm_decision_function ext features_scaled = Some svm_scores
    ∧ svm_loop transactions 0 (combine svm_predictions svm_scores) anomalies
      = Some ml_anomalies.
Proof.
  intros Hlen. unfold detect_anomalies_ml.
  destruct (Nat.ltb_spec (length transactions) 10) as [Hlt|_]; [lia|].
  destruct (scaler_fit_transform ext _) as [X|] eqn:HX; [simpl|done].
  destruct (iso_forest_fit_predict ext X) as [ip|] eqn:Hip; [simpl|done].
  destruct (iso_forest_decision_function ext X) as [isc|] eqn:Hisc; [simpl|done].
  destruct (iso_forest_loop _ _ _ _) as [A1|] eqn:Hiso; [simpl|done].
  destruct (svm_fit_predict ext X) as [sp|] eqn:Hsp; [simpl|done].
  destruct (svm_decision_function ext X) as [ssc|] eqn:Hssc; [simpl|done].
  intros Hout. by exists X, ip, isc, A1, sp, ssc.
Qed.



(** * Data quality *)

Lemma one_null_count i c : i < 4 → one_null_at i c → count_non_null c = 3.
Proof.
  intros Hi [Hlen Hnull].
  pose proof (Hnull 0 ltac:(lia)) as H0. pose proof (Hnull 1 ltac:(lia)) as H1.
  pose proof (Hnull 2 ltac:(lia)) as H2. pose proof (Hnull 3 ltac:(lia)) as H3.
  destruct c as [values|values];
    destruct values as [|a [|b [|c [|d [|e values]]]]]; try discriminate Hlen;
    simpl in H0, H1, H2, H3; simpl.
  - rewrite H0, H1, H2, H3.
    destruct i as [|[|[|[|i]]]]; [reflexivity..|lia].
  - destruct a, b, c, d;
      destruct i as [|[|[|[|i]]]]; try reflexivity; try discriminate; lia.
Qed.

Lemma check_amount_numeric df st :
  amount_is_numeric df → ∃ st', check_amount df st = Some st'.
Proof.
  intros Hnum. unfold check_amount.
  unfold amount_is_numeric in Hnum.
  destruct (get_column "amount" (columns df)) as [c|]; [|by eexists].
  destruct (Hnum c eq_refl) as [values ->]. simpl.
  destruct (0 <? _)%nat; by eexists.
Qed.

Lemma check_amount_negative df values :
  get_column "amount" (columns df) = Some (FloatColumn values) →
  Exists (fun x => (x <? 0)%float = true) values →
  ∃ issues, check_amount df ([], 100%float) = Some (issues, 90%float).
Proof.
  intros Hc Hneg. unfold check_amount. rewrite Hc. simpl.
  assert (Hpos : 0 < length (List.filter (fun x => (x <? 0)%float) values)).
  { apply List.Exists_exists in Hneg as (x & Hin & Hx).
    assert (Hf : In x (List.filter (fun x => (x <? 0)%float) values))
      by (apply filter_In; by split).
    destruct (List.filter _ values); [destruct Hf|simpl; lia]. }
  rewrite (proj2 (Nat.ltb_lt _ _) Hpos). by eexists.
Qed.

Lemma count_sum_one_null_row df i :
  length (columns df) = 5 → i < 4 →
  Forall (fun nc => one_null_at i nc.2) (columns df) →
  count_sum df = 15.
Proof.
  intros Hlen Hi Hall. unfold count_sum.
  destruct (columns df) as [|c1 [|c2 [|c3 [|c4 [|c5 [|c6 cols]]]]]]; try discriminate Hlen.
  repeat match goal with
         | H : Forall _ (_ :: _) |- _ => apply Forall_cons in H as [? H]
         end.
  simpl. by rewrite !(one_null_count i) by done.
Qed.

Lemma one_null_row_frame_shape :
  Forall (fun nc => one_null_at 1 nc.2) (columns one_null_row_frame).
Proof.
  repeat constructor; simpl; intros j Hj;
    destruct j as [|[|[|[|j]]]]; try reflexivity; lia.
Qed.

(** C9 as stated fails: a table of 4 rows and 5 columns with one row missing
    and the others complete has 15 of its 20 cells present and scores 75.0,
    not 95.0. *)
Lemma completeness_counterexample :
  nrows one_null_row_frame = 4
  ∧ length (columns one_null_row_frame) = 5
  ∧ Forall (fun nc => one_null_at 1 nc.2) (columns one_null_row_frame)
  ∧ DataQualityReport.completeness_score
      <$> calculate_data_quality example_external one_null_row_frame "transactions"
    = Some 75%float
  ∧ (75 =? 95)%float = false.
Proof.
  split; [done|]. split; [done|]. split; [apply one_null_row_frame_shape|].
  split; vm_compute; reflexivity.
Qed.

(** C9, amended (quality scoring).  A table of 4 rows and 5 columns in which
    exactly one row is missing in every column, and whose amount column is
    numeric, gets completeness_score 75.0, that is 100 x 15 / 20; and a
    table whose numeric amount column holds a negative value gets a
    consistency_score of at most 90.0. *)
Theorem quality_scoring (ext : External) (df : DataFrame) (dataset_name : string) :
  (nrows df = 4 → length (columns df) = 5 →
   (∃ i, i < 4 ∧ Forall (fun nc => one_null_at i nc.2) (columns df)) →
   amount_is_numeric df →
   ∃ report,
     calculate_data_quality ext df dataset_name = Some report
     ∧ DataQualityReport.completeness_score report = 75%float)
  ∧ (∀ values,
       get_column "amount" (columns df) = Some (FloatColumn values) →
       Exists (fun x => (x <? 0)%float = true) values →
       ∃ report,
         calculate_data_quality ext df dataset_name = Some report
         ∧ (DataQualityReport.consistency_score report <=? 90)%float = true).
Proof.
  split.
  - intros Hrows Hcols (i & Hi & Hnull) Hnum.
    unfold calculate_data_quality.
    destruct (check_amount_numeric df ([], 100%float) Hnum) as [st ->]. simpl.
    destruct (check_date ext df st) as [consistency_issues consistency_score].
    eexists. split; [done|]. simpl.
    rewrite (count_sum_one_null_row df i Hcols Hi Hnull), Hrows, Hcols.
    vm_compute. reflexivity.
  - intros values Hc Hneg. unfold calculate_data_quality.
    destruct (check_amount_negative df values Hc Hneg) as [issues ->]. simpl.
    unfold check_date.
    destruct (get_column "date" (columns df)) as [c|]; [|by eexists].
    destruct (to_datetime ext c); by eexists.
Qed.

Lemma quality_scoring_witness :
  (∃ report,
     calculate_data_quality example_external one_null_row_frame "transactions" = Some report
     ∧ DataQualityReport.completeness_score report = 75%float)
  ∧ (∃ report,
       calculate_data_quality example_external one_null_row_frame "transactions" = Some report
       ∧ (DataQualityReport.consistency_score report <=? 90)%float = true).
Proof.
  destruct (quality_scoring example_external one_null_row_frame "transactions") as [Ha Hb].
  split.
  - apply Ha; [reflexivity|reflexivity| |].
    + exists 1. split; [lia|apply one_null_row_frame_shape].
    + intros c [= <-]. by eexists.
  - apply (Hb [1500; nan; -750; 1200]%float); [reflexivity|].
    apply Exists_cons_tl, Exists_cons_tl, Exists_cons_hd. reflexivity.
Defined.

(** * A column of equal amounts *)

Section ConstantColumn.

Variable c : float.

Lemma insert_sorted_constant x l :
  (x =? c)%float = true → constant c l → constant c (insert_sorted x l).
Proof.
  intros Hx. induction 1 as [|y l Hy Hl IH]; simpl.
  - by repeat constructor.
  - destruct (x <=? y)%float; repeat constructor; done.
Qed.

Lemma sort_floats_constant a : constant c a → constant c (sort_floats a).
Proof.
  induction 1 as [|x a Hx Ha IH]; simpl; [constructor|].
  by apply insert_sorted_constant.
Qed.

Lemma dropna_constant a : constant c a → constant c (dropna a).
Proof.
  intros Ha. unfold constant, dropna in *. rewrite Forall_forall in *.
  intros x [Hx _]%elem_of_filter_bool. by apply Ha.
Qed.

Lemma nth_near i l : constant c l → near c (nth i l nan).
Proof.
  intros Hl. destruct (nth_in_or_default i l nan) as [Hin| ->]; [|apply near_nan].
  apply near_eqb. unfold constant in Hl. rewrite Forall_forall in Hl.
  apply Hl. by apply list_elem_of_In.
Qed.

Lemma quantile_near a q : constant c a → near c (quantile a q).
Proof.
  intros Ha. unfold quantile.
  pose proof (sort_floats_constant _ (dropna_constant _ Ha)) as Hv.
  destruct (sort_floats (dropna a)) as [|v values] eqn:Hs; [apply near_nan|].
  apply lerp_near; by apply nth_near.
Qed.

Lemma np_min_constant a : a ≠ [] → constant c a → (np_min a =? c)%float = true.
Proof.
  destruct a as [|x rest]; [done|]. intros _ Ha. apply Forall_cons in Ha as [Hx Hrest].
  simpl. revert x Hx. induction Hrest as [|y rest Hy Hrest IH]; intros m Hm; [done|].
  simpl. rewrite (eqb_not_nan c m Hm), (eqb_not_nan c y Hy). simpl.
  destruct (y <? m)%float; by apply IH.
Qed.

Lemma isconst_constant a : a ≠ [] → constant c a → isconst a = true.
Proof.
  intros Hne Ha. unfold isconst. apply forallb_forall. intros x Hx.
  unfold constant in Ha. rewrite Forall_forall in Ha.
  apply (eqb_eqb c); [apply Ha; by apply list_elem_of_In|].
  apply np_min_constant; [done|]. by apply Forall_forall.
Qed.

End ConstantColumn.

Lemma filter_all_false {A} (p : A → bool) (l : list A) :
  (∀ x, x ∈ l → p x = false) → List.filter p l = [].
Proof.
  induction l as [|x l IH]; intros Hp; simpl; [done|].
  rewrite (Hp x) by by left. apply IH. intros y Hy. apply Hp. by right.
Qed.

Lemma amounts_constant c transactions :
  (∀ txn, txn ∈ transactions → (Transaction.amount txn =? c)%float = true) →
  constant c (amounts transactions).
Proof.
  intros Hc. unfold constant, amounts. apply Forall_forall.
  intros x (txn & -> & Hin)%list_elem_of_fmap. by apply Hc.
Qed.

Lemma bounds_near c transactions :
  constant c (amounts transactions) →
  near c (lower_bound transactions) ∧ near c (upper_bound transactions).
Proof.
  intros Ha. unfold lower_bound, upper_bound.
  pose proof (quantile_near c _ 0.25 Ha) as H1.
  pose proof (quantile_near c _ 0.75 Ha) as H3.
  split.
  - apply sub_near_zero; [done|]. apply mul_zero_or_nan_r. by eapply sub_near.
  - apply add_near; [done|]. apply mul_zero_or_nan_r. by eapply sub_near.
Qed.

(** C10 (degenerate variance).  With at least 5 transactions whose amounts
    are all equal, statistical detection returns the empty list: no absolute
    z-score exceeds 3 and no amount is below the lower or above the upper
    IQR bound. *)
Theorem degenerate_variance (transactions : list Transaction) (c : float) :
  5 ≤ length transactions →
  (∀ txn, txn ∈ transactions → (Transaction.amount txn =? c)%float = true) →
  detect_anomalies_statistical transactions = []
  ∧ ∀ txn, txn ∈ transactions →
      (3 <? z_score_of transactions txn)%float = false
      ∧ (Transaction.amount txn <? lower_bound transactions)%float = false
      ∧ (upper_bound transactions <? Transaction.amount txn)%float = false.
Proof.
  intros Hlen Hc.
  pose proof (amounts_constant c transactions Hc) as Ha.
  assert (Hne : amounts transactions ≠ []).
  { unfold amounts. destruct transactions; [simpl in Hlen; lia|done]. }
  assert (Hz : ∀ txn, (3 <? z_score_of transactions txn)%float = false).
  { intros txn. unfold z_score_of, standard_score.
    by rewrite (isconst_constant c _ Hne Ha). }
  destruct (bounds_near c transactions Ha) as [Hlo Hup].
  assert (Hiqr : ∀ txn, txn ∈ transactions →
    (Transaction.amount txn <? lower_bound transactions)%float = false
    ∧ (upper_bound transactions <? Transaction.amount txn)%float = false).
  { intros txn Hin. split.
    - by apply (near_not_lt c _ _ (Hc txn Hin) Hlo).
    - by apply (near_not_lt c _ _ (Hc txn Hin) Hup). }
  split; [|intros txn Hin; split; [apply Hz|by apply Hiqr]].
  unfold detect_anomalies_statistical.
  destruct (Nat.ltb_spec (length transactions) 5) as [Hlt|_]; [lia|].
  rewrite z_anomalies_filter.
  rewrite (filter_all_false (fun txn => (3 <? z_score_of transactions txn)%float))
    by (intros txn _; apply Hz).
  unfold iqr_anomalies. rewrite (filter_all_false (outside_iqr transactions)); [done|].
  intros txn Hin. unfold outside_iqr.
  destruct (Hiqr txn Hin) as [-> ->]. done.
Qed.

Lemma degenerate_variance_witness :
  detect_anomalies_statistical seven_equal_transactions = []
  ∧ (np_mean (amounts seven_equal_transactions) =? 0.1)%float = false.
Proof.
  split; [|vm_compute; reflexivity].
  apply (degenerate_variance seven_equal_transactions 0.1).
  - simpl. lia.
  - intros txn Hin. apply list_elem_of_In in Hin. simpl in Hin.
    repeat (destruct Hin as [<-|Hin]; [reflexivity|]). destruct Hin.
Defined.

(** * Further properties of the reconciliation engine *)

(** * Further properties of the reconciliation engine *)

Lemma result_at_status txn gl :
  ReconciliationResult.status (result_at txn gl) = "matched"
  ∨ ReconciliationResult.status (result_at txn gl) = "amount_mismatch".
Proof. unfold result_at. destruct (_ <? 0.01)%float; [by left|by right]. Qed.

Lemma result_of_missing gls st txn :
  result_of gls st txn = missing_gl_result txn ↔ scan_gl_entries txn gls st.2 = None.
Proof.
  unfold result_of.
  destruct (scan_gl_entries txn gls st.2) as [[gl r]|] eqn:Hs; [|done].
  split; [|done]. intros ->.
  apply scan_In in Hs as [_ Hr].
  destruct (result_at_status txn gl) as [H|H]; rewrite <- Hr in H; discriminate H.
Qed.

(** X1 (missing ledger entry).  The transaction that follows [before] gets
    the result missing_gl exactly when the ledger holds no entry that is
    eligible for it at that point of the run: none with its account and date
    that no earlier transaction has claimed and whose net amount differs from
    its amount by less than 100. *)
Theorem missing_gl_iff_none_eligible (before : list Transaction) (txn : Transaction)
    (after : list Transaction) (gl_entries : list GeneralLedgerEntry) :
  reconcile_results (before ++ txn :: after) gl_entries !! length before
  = Some (missing_gl_result txn)
  ↔ Forall (fun gl => eligible txn (claimed_gl_ids before gl_entries) gl = false)
      gl_entries.
Proof.
  rewrite reconcile_results_lookup, <- scan_none.
  unfold claimed_gl_ids. rewrite <- result_of_missing.
  split; [by intros [= ->]|by intros ->].
Qed.

(** X2 (a mismatch ends the scan).  When the first eligible ledger entry of
    a transaction differs from it by 0.01 or more (and less than 100), the
    transaction gets amount_mismatch with that entry and the signed
    difference, and the entry is claimed, whatever entries follow it in the
    ledger: a later entry with the exact amount is not looked at. *)
Theorem amount_mismatch_is_terminal (before : list Transaction) (txn : Transaction)
    (after : list Transaction) (skipped : list GeneralLedgerEntry)
    (gl : GeneralLedgerEntry) (rest : list GeneralLedgerEntry) :
  let gl_entries := skipped ++ gl :: rest in
  let claimed := claimed_gl_ids before gl_entries in
  Forall (fun g0 => eligible txn claimed g0 = false) skipped →
  candidate txn gl claimed = true →
  (abs (gl_amount gl - Transaction.amount txn) <? 0.01)%float = false →
  (abs (gl_amount gl - Transaction.amount txn) <? 100)%float = true →
  reconcile_results (before ++ txn :: after) gl_entries !! length before
  = Some (ReconciliationResult.mk "amount_mismatch"
            (Some (Transaction.txn_id txn)) (Some (GeneralLedgerEntry.gl_id gl))
            (Transaction.account_id txn) (Transaction.date txn)
            (Some (gl_amount gl - Transaction.amount txn)%float))
  ∧ GeneralLedgerEntry._id gl ∈ claimed_gl_ids (before ++ txn :: after) gl_entries.
Proof.
  intros gl_entries claimed Hskip Hc Hlo Hhi.
  assert (Hs : scan_gl_entries txn gl_entries claimed
               = Some (gl, amount_mismatch_result txn gl)).
  { unfold gl_entries. rewrite (scan_first txn claimed skipped gl rest Hskip).
    - unfold result_at. by rewrite Hlo.
    - unfold eligible, within_tolerance. by rewrite Hc, Hlo, Hhi. }
  split.
  - rewrite reconcile_results_lookup. unfold result_of.
    fold (claimed_gl_ids before gl_entries). fold claimed. by rewrite Hs.
  - unfold claimed_gl_ids. rewrite transactions_loop_app, transactions_loop_cons.
    apply transactions_loop_claimed. by eapply process_transaction_claims.
Qed.

Lemma amount_mismatch_is_terminal_witness :
  reconcile_results [txn_100] [gl_debit 10 "GL001" 150; gl_debit 11 "GL002" 100] !! 0%nat
  = Some (ReconciliationResult.mk "amount_mismatch" (Some "TXN001") (Some "GL001")
            "ACC1" "2024-01-01" (Some 50%float)).
Proof.
  apply (amount_mismatch_is_terminal [] txn_100 [] [] (gl_debit 10 "GL001" 150)
           [gl_debit 11 "GL002" 100]); [constructor|vm_compute; reflexivity..].
Defined.

(** X3 (one side empty).  With an empty ledger every transaction gets
    missing_gl, in order; with no transactions every ledger entry gets
    missing_transaction, in order. *)
Theorem reconcile_empty_side (transactions : list Transaction)
    (gl_entries : list GeneralLedgerEntry) :
  reconcile_results transactions [] = map missing_gl_result transactions
  ∧ reconcile_results [] gl_entries = map missing_transaction_result gl_entries.
Proof.
  split.
  - unfold reconcile_results. simpl. rewrite app_nil_r.
    assert (H : ∀ st, (transactions_loop [] transactions st).1
                      = st.1 ++ map missing_gl_result transactions).
    { induction transactions as [|txn l IH]; intros st.
      - simpl. by rewrite app_nil_r.
      - rewrite transactions_loop_cons, IH. simpl. by rewrite <- app_assoc. }
    by rewrite H.
  - unfold reconcile_results, missing_transactions. simpl. f_equal.
    induction gl_entries as [|gl l IH]; simpl; [done|].
    unfold unclaimed at 1. rewrite bool_decide_eq_false_2 by set_solver. simpl.
    by rewrite IH.
Qed.

Lemma result_at_well_formed txn gl :
  within_tolerance txn gl = true → well_formed_result (result_at txn gl).
Proof.
  unfold within_tolerance, result_at, well_formed_result.
  destruct (_ <? 0.01)%float eqn:Hlo; simpl.
  - intros _. left. by repeat split.
  - intros Hhi. right. left. repeat split; [done..|]. by eexists.
Qed.

Lemma result_of_well_formed gls st txn : well_formed_result (result_of gls st txn).
Proof.
  unfold result_of.
  destruct (scan_gl_entries txn gls st.2) as [[gl r]|] eqn:Hs.
  - apply scan_some_inv in Hs as (l1 & l2 & _ & _ & He & ->).
    apply result_at_well_formed. unfold eligible in He.
    by apply andb_prop in He as [_ He].
  - right. right. left. by repeat split.
Qed.

Lemma transactions_loop_Forall (P : ReconciliationResult → Prop) gls l st :
  (∀ st' txn, P (result_of gls st' txn)) →
  Forall P st.1 → Forall P (transactions_loop gls l st).1.
Proof.
  intros HP. revert st. induction l as [|txn l IH]; intros st Hst; [done|].
  rewrite transactions_loop_cons. apply IH.
  rewrite process_transaction_results. apply Forall_app. split; [done|].
  by repeat constructor.
Qed.

(** X4 (shape of the results).  Every result of a run has one of the four
    statuses with the fields that go with it: matched carries a transaction
    id, a ledger id and the difference 0.0; amount_mismatch carries both ids
    and a difference whose absolute value is at least 0.01 and below 100;
    missing_gl carries a transaction id only; missing_transaction a ledger id
    only; the last two carry no difference. *)
Theorem results_well_formed (transactions : list Transaction)
    (gl_entries : list GeneralLedgerEntry) :
  Forall well_formed_result (reconcile_results transactions gl_entries).
Proof.
  unfold reconcile_results. apply Forall_app. split.
  - apply transactions_loop_Forall; [apply result_of_well_formed|constructor].
  - unfold missing_transactions. apply Forall_map, Forall_forall. intros gl _.
    right. right. right. by repeat split.
Qed.

(** The ledger entries not in [X] and the members of [X] add up to the
    ledger, when [X] holds identifiers of the ledger and no identifier is
    used twice. *)
Lemma unclaimed_count gls (X : gset N) :
  NoDup (map GeneralLedgerEntry._id gls) →
  (∀ x, x ∈ X → x ∈ map GeneralLedgerEntry._id gls) →
  length (List.filter (unclaimed X) gls) + size X = length gls.
Proof.
  revert X. induction gls as [|g l IH]; intros X Hnd Hsub; simpl.
  { assert (X = ∅) as -> by (apply set_eq; intros x; split; [intros Hx|set_solver];
      specialize (Hsub x Hx); by apply elem_of_nil in Hsub).
    by rewrite size_empty. }
  simpl in Hnd. apply NoDup_cons in Hnd as [Hg Hnd].
  unfold unclaimed at 1.
  destruct (decide (GeneralLedgerEntry._id g ∈ X)) as [Hin|Hout].
  - rewrite bool_decide_eq_true_2 by done. simpl.
    assert (Hsub' : ∀ x, x ∈ X ∖ {[GeneralLedgerEntry._id g]} →
                         x ∈ map GeneralLedgerEntry._id l).
    { intros x [Hx Hne]%elem_of_difference. rewrite elem_of_singleton in Hne.
      specialize (Hsub x Hx). apply elem_of_cons in Hsub as [->|Hx']; done. }
    assert (Hsize : size X = S (size (X ∖ {[GeneralLedgerEntry._id g]}))).
    { rewrite (union_difference_L {[GeneralLedgerEntry._id g]} X) at 1
        by by apply singleton_subseteq_l.
      rewrite size_union by apply disjoint_difference_r1, reflexivity.
      by rewrite size_singleton. }
    assert (Hfilter : List.filter (unclaimed X) l
                      = List.filter (unclaimed (X ∖ {[GeneralLedgerEntry._id g]})) l).
    { apply List.filter_ext_in. intros g' Hg'. unfold unclaimed. f_equal.
      apply bool_decide_ext. rewrite elem_of_difference, elem_of_singleton.
      split; [|tauto]. intros Hx. split; [done|]. intros Heq. apply Hg.
      rewrite <- Heq. apply list_elem_of_fmap. exists g'. split; [done|].
      by apply list_elem_of_In. }
    rewrite Hfilter, Hsize.
    pose proof (IH _ Hnd Hsub') as HIH. lia.
  - rewrite bool_decide_eq_false_2 by done. simpl. f_equal. apply IH; [done|].
    intros x Hx. specialize (Hsub x Hx). apply elem_of_cons in Hsub as [->|Hx']; done.
Qed.

Lemma is_claiming_result_at txn gl : is_claiming (result_at txn gl) = true.
Proof. unfold is_claiming, result_at. by destruct (_ <? 0.01)%float. Qed.

(** The first loop keeps [matched_gl_ids] inside the ledger and as large as
    the number of matched and amount_mismatch results. *)
Lemma transactions_loop_claim_count gls l st :
  (∀ x, x ∈ st.2 → x ∈ map GeneralLedgerEntry._id gls) →
  size st.2 = length (List.filter is_claiming st.1) →
  let st' := transactions_loop gls l st in
  (∀ x, x ∈ st'.2 → x ∈ map GeneralLedgerEntry._id gls)
  ∧ size st'.2 = length (List.filter is_claiming st'.1).
Proof.
  revert st. induction l as [|txn l IH]; intros st Hsub Hsize; [done|].
  cbv zeta. rewrite transactions_loop_cons. apply IH.
  - unfold process_transaction.
    destruct (scan_gl_entries txn gls st.2) as [[gl r]|] eqn:Hs; simpl; [|done].
    intros x [->%elem_of_singleton|Hx]%elem_of_union; [|by apply Hsub].
    apply scan_In in Hs as [Hin _]. apply list_elem_of_fmap. exists gl.
    split; [done|]. by apply list_elem_of_In.
  - unfold process_transaction.
    destruct (scan_gl_entries txn gls st.2) as [[gl r]|] eqn:Hs; simpl.
    + rewrite List.filter_app, length_app. simpl.
      pose proof (scan_fresh _ _ _ _ _ Hs) as Hfresh.
      apply scan_In in Hs as [_ ->]. rewrite is_claiming_result_at. simpl.
      rewrite size_union by by apply disjoint_singleton_l.
      rewrite size_singleton. lia.
    + rewrite List.filter_app, length_app. simpl. lia.
Qed.

(** Every result but the claiming ones stands for one record: a claiming
    result stands for a transaction and a ledger entry at once. *)
Lemma claim_count_conservation (transactions : list Transaction)
    (gl_entries : list GeneralLedgerEntry) :
  NoDup (map GeneralLedgerEntry._id gl_entries) →
  let results := reconcile_results transactions gl_entries in
  length results + length (List.filter is_claiming results)
  = length transactions + length gl_entries.
Proof.
  intros Hnd results. unfold results, reconcile_results.
  destruct (transactions_loop_claim_count gl_entries transactions ([], ∅))
    as [Hsub Hsize]; [set_solver|done|].
  rewrite List.filter_app, !length_app, transactions_loop_length.
  assert (Hmiss : List.filter is_claiming
            (missing_transactions gl_entries
               (transactions_loop gl_entries transactions ([], ∅)).2) = []).
  { unfold missing_transactions. generalize (List.filter
      (unclaimed (transactions_loop gl_entries transactions ([], ∅)).2) gl_entries).
    intros l. by induction l. }
  rewrite Hmiss. unfold missing_transactions. rewrite length_map. simpl.
  rewrite <- Hsize.
  pose proof (unclaimed_count gl_entries _ Hnd Hsub). lia.
Qed.

(** X5 (what a pairing pairs).  A matched or amount_mismatch result at
    position [i] stands for the [i]-th transaction and for an entry of the
    ledger that has the account and the date of that transaction and a net
    amount within 100 of its amount; the result carries the id of each and
    their common account and date. *)
Theorem pairing_respects_account_and_date (transactions : list Transaction)
    (gl_entries : list GeneralLedgerEntry) (i : nat) (r : ReconciliationResult) :
  reconcile_results transactions gl_entries !! i = Some r →
  claiming r →
  ∃ txn gl,
    transactions !! i = Some txn ∧ gl ∈ gl_entries
    ∧ GeneralLedgerEntry.account_id gl = Transaction.account_id txn
    ∧ GeneralLedgerEntry.date gl = Transaction.date txn
    ∧ (abs (gl_amount gl - Transaction.amount txn) <? 0.01)%float
      || (abs (gl_amount gl - Transaction.amount txn) <? 100)%float = true
    ∧ ReconciliationResult.transaction_id r = Some (Transaction.txn_id txn)
    ∧ ReconciliationResult.gl_id r = Some (GeneralLedgerEntry.gl_id gl)
    ∧ ReconciliationResult.account_id r = GeneralLedgerEntry.account_id gl
    ∧ ReconciliationResult.date r = GeneralLedgerEntry.date gl.
Proof.
  intros Hr Hc.
  destruct (reconcile_results_claiming _ _ _ _ Hr Hc) as (txn & gl & Htxn & Hs).
  exists txn, gl. split; [done|].
  apply scan_some_inv in Hs as (l1 & l2 & -> & _ & He & ->).
  unfold eligible, candidate in He.
  apply andb_prop in He as [He Htol]. apply andb_prop in He as [He _].
  apply andb_prop in He as [Ha%String.eqb_eq Hd%String.eqb_eq].
  split; [apply elem_of_app; right; by left|].
  split; [done|]. split; [done|]. split; [exact Htol|].
  unfold result_at. destruct (_ <? 0.01)%float; simpl; by rewrite Ha, Hd.
Qed.

Lemma pairing_respects_account_and_date_witness :
  ∃ txn gl,
    [txn_100] !! 0%nat = Some txn ∧ gl ∈ [gl_debit 10 "GL001" 150]
    ∧ GeneralLedgerEntry.account_id gl = Transaction.account_id txn
    ∧ GeneralLedgerEntry.date gl = Transaction.date txn.
Proof.
  destruct (pairing_respects_account_and_date [txn_100] [gl_debit 10 "GL001" 150] 0
              (amount_mismatch_result txn_100 (gl_debit 10 "GL001" 150)))
    as (txn & gl & H1 & H2 & H3 & H4 & _).
  - vm_compute. reflexivity.
  - by right.
  - by exists txn, gl.
Defined.

(** * The two runs and the store *)

Lemma exec_reconcile_writes db :
  exec (reconcile_writes db) db
  = mkDatabase (transactions db) (general_ledger db)
      (reconcile_results (transactions db) (general_ledger db)) (anomalies db).
Proof.
  unfold reconcile_writes.
  generalize (reconcile_results (transactions db) (general_ledger db)). intros rs.
  unfold exec. simpl.
  assert (H : ∀ acc, fold_left apply_write (map InsertReconciliationResult rs)
                (mkDatabase (transactions db) (general_ledger db) acc (anomalies db))
              = mkDatabase (transactions db) (general_ledger db) (acc ++ rs) (anomalies db)).
  { induction rs as [|r rs IH]; intros acc; simpl.
    - by rewrite app_nil_r.
    - rewrite IH. by rewrite <- app_assoc. }
  apply H.
Qed.


Lemma exec_anomaly_writes ext db :
  exec (anomaly_detection_writes ext db) db
  = mkDatabase (transactions db) (general_ledger db) (reconciliation_results db)
      (default [] (all_anomalies ext (transactions db))).
Proof.
  unfold anomaly_detection_writes.
  by destruct (all_anomalies ext (transactions db)) as [[|a rest]|].
Qed.

(** X7 (an anomaly run and the store).  An anomaly run leaves the
    transactions, the ledger and the reconciliation results as they are; the
    count it returns is the number of anomalies it leaves in the collection;
    and when a detector raises, no count is returned and the collection is
    left empty. *)
Theorem anomaly_run_frame_and_count (ext : External) (db : Database) :
  let run := run_anomaly_detection ext db in
  transactions run.1 = transactions db
  ∧ general_ledger run.1 = general_ledger db
  ∧ reconciliation_results run.1 = reconciliation_results db
  ∧ (∀ n, run.2 = Some n → length (anomalies run.1) = n)
  ∧ (run.2 = None → anomalies run.1 = []).
Proof.
  cbv zeta. unfold run_anomaly_detection. cbn [fst snd].
  rewrite exec_anomaly_writes. cbn [transactions general_ledger anomalies
    reconciliation_results].
  repeat split.
  - intros n. destruct (all_anomalies ext (transactions db)); simpl; congruence.
  - by destruct (all_anomalies ext (transactions db)).
Qed.

(** * NaN *)

Lemma is_nan_SF x : PrimFloat.is_nan x = true ↔ Prim2SF x = S754_nan.
Proof.
  unfold PrimFloat.is_nan. rewrite FloatAxioms.eqb_spec. unfold SFeqb.
  destruct (Prim2SF x) as [s|s| |s m e] eqn:Hx.
  - by destruct s.
  - by destruct s.
  - done.
  - by rewrite SFcompare_refl_finite.
Qed.

Lemma add_nan_l x y : PrimFloat.is_nan x = true → PrimFloat.is_nan (x + y) = true.
Proof.
  rewrite !is_nan_SF, FloatAxioms.add_spec. intros ->. done.
Qed.

Lemma add_nan_r x y : PrimFloat.is_nan y = true → PrimFloat.is_nan (x + y) = true.
Proof.
  rewrite !is_nan_SF, FloatAxioms.add_spec. intros ->. by destruct (Prim2SF x).
Qed.

Lemma sub_nan_r x y : PrimFloat.is_nan y = true → PrimFloat.is_nan (x - y) = true.
Proof.
  rewrite !is_nan_SF, FloatAxioms.sub_spec. intros ->. by destruct (Prim2SF x).
Qed.

Lemma div_nan_l x y : PrimFloat.is_nan x = true → PrimFloat.is_nan (x / y) = true.
Proof.
  rewrite !is_nan_SF, FloatAxioms.div_spec. intros ->. done.
Qed.

Lemma abs_nan x : PrimFloat.is_nan x = true → PrimFloat.is_nan (abs x) = true.
Proof.
  rewrite !is_nan_SF, FloatAxioms.abs_spec. intros ->. done.
Qed.

Lemma ltb_nan_l x y : PrimFloat.is_nan x = true → (x <? y)%float = false.
Proof.
  rewrite is_nan_SF, FloatAxioms.ltb_spec. intros ->. done.
Qed.

Lemma ltb_nan_r x y : PrimFloat.is_nan y = true → (x <? y)%float = false.
Proof.
  rewrite is_nan_SF, FloatAxioms.ltb_spec. intros ->. unfold SFltb.
  by destruct (Prim2SF x).
Qed.

Lemma eqb_nan_l x y : PrimFloat.is_nan x = true → (x =? y)%float = false.
Proof.
  rewrite is_nan_SF, FloatAxioms.eqb_spec. intros ->. done.
Qed.

Lemma fold_add_nan_acc l acc :
  PrimFloat.is_nan acc = true → PrimFloat.is_nan (fold_left PrimFloat.add l acc) = true.
Proof.
  revert acc. induction l as [|x l IH]; intros acc Hacc; [done|].
  simpl. apply IH. by apply add_nan_l.
Qed.

Lemma np_sum_nan a x :
  x ∈ a → PrimFloat.is_nan x = true → PrimFloat.is_nan (np_sum a) = true.
Proof.
  unfold np_sum. generalize 0%float.
  induction a as [|y a IH]; intros acc Hin Hx; [by apply elem_of_nil in Hin|].
  apply elem_of_cons in Hin as [<-|Hin]; simpl.
  - apply fold_add_nan_acc. by apply add_nan_r.
  - by apply IH.
Qed.

Lemma isconst_nan a x :
  x ∈ a → PrimFloat.is_nan x = true → isconst a = false.
Proof.
  intros Hin Hx. unfold isconst. apply not_true_iff_false.
  rewrite forallb_forall. intros Hall.
  apply list_elem_of_In in Hin. specialize (Hall x Hin).
  by rewrite (eqb_nan_l x _ Hx) in Hall.
Qed.

(** A missing amount makes every score of [zscore] nan. *)
Lemma standard_score_nan a x y :
  x ∈ a → PrimFloat.is_nan x = true →
  PrimFloat.is_nan (standard_score a y) = true.
Proof.
  intros Hin Hx. unfold standard_score. rewrite (isconst_nan a x Hin Hx).
  apply div_nan_l, sub_nan_r. unfold np_mean. apply div_nan_l.
  by eapply np_sum_nan.
Qed.

(** * The rows of the statistical detector *)

Lemma filter_length_impl {A} (p q : A → bool) (l : list A) :
  (∀ x, x ∈ l → p x = true → q x = true) →
  length (List.filter p l) ≤ length (List.filter q l).
Proof.
  induction l as [|x l IH]; intros Hpq; [done|]. simpl.
  assert (IH' : length (List.filter p l) ≤ length (List.filter q l)).
  { apply IH. intros y Hy. apply Hpq. by right. }
  destruct (p x) eqn:Hp.
  - rewrite (Hpq x (list_elem_of_here _ _) Hp). simpl. lia.
  - destruct (q x); simpl; lia.
Qed.



(** The second loop without any assumption on the ids: it appends [iqr]
    rows of transactions whose id is not flagged yet, at most one per
    transaction it visits. *)
Lemma iqr_loop_added transactions l anomalies :
  ∃ added,
    fold_left (add_iqr_anomaly transactions) l anomalies = anomalies ++ added
    ∧ (∀ b, b ∈ added →
        ∃ txn, txn ∈ l ∧ b = iqr_anomaly transactions txn
               ∧ already_flagged anomalies (Transaction.txn_id txn) = false)
    ∧ length added
      ≤ length (List.filter
                  (fun txn => negb (already_flagged anomalies (Transaction.txn_id txn))) l).
Proof.
  revert anomalies. induction l as [|txn l IH]; intros anomalies; simpl.
  { exists []. rewrite app_nil_r. split; [done|]. split; [|done].
    intros b Hb. by apply elem_of_nil in Hb. }
  unfold add_iqr_anomaly at 2.
  destruct (already_flagged anomalies (Transaction.txn_id txn)) eqn:Hf; simpl.
  - destruct (IH anomalies) as (added & -> & Hadded & Hlen).
    exists added. split; [done|]. split; [|done].
    intros b Hb. destruct (Hadded b Hb) as (t & Ht & -> & Hno).
    exists t. split; [by right|done].
  - destruct (IH (anomalies ++ [iqr_anomaly transactions txn]))
      as (added & -> & Hadded & Hlen).
    assert (Hmono : ∀ id,
      already_flagged (anomalies ++ [iqr_anomaly transactions txn]) id = false →
      already_flagged anomalies id = false).
    { intros id. unfold already_flagged. rewrite existsb_app.
      by intros [? _]%orb_false_elim. }
    exists (iqr_anomaly transactions txn :: added).
    rewrite <- app_assoc. split; [done|]. split.
    + intros b [->|Hb]%elem_of_cons.
      * exists txn. split; [by left|done].
      * destruct (Hadded b Hb) as (t & Ht & -> & Hno).
        exists t. split; [by right|]. split; [done|]. by apply Hmono.
    + simpl. apply le_n_S. etrans; [exact Hlen|].
      apply filter_length_impl. intros t _ Ht.
      apply negb_true_iff in Ht. apply negb_true_iff. by apply Hmono.
Qed.

(** Every row of the statistical output stands for a flagged transaction. *)
Lemma statistical_rows transactions :
  Forall (statistical_row transactions) (detect_anomalies_statistical transactions).
Proof.
  unfold detect_anomalies_statistical.
  destruct (length transactions <? 5)%nat; [done|].
  rewrite z_score_anomalies_map.
  set (z := fun txn => (3 <? z_score_of transactions txn)%float).
  set (mkz := fun txn => AnomalyResult.mk _ _ _ _ _).
  destruct (iqr_loop_added transactions (iqr_anomalies transactions)
              (map mkz (List.filter z transactions)))
    as (added & -> & Hadded & _).
  apply Forall_app. split; apply Forall_forall.
  - intros a (txn & -> & [Hin Hz]%elem_of_filter_bool)%list_elem_of_fmap.
    exists txn. split; [done|]. left. by split.
  - intros a Ha. destruct (Hadded a Ha) as (txn & [Hin Ho]%elem_of_filter_bool & -> & _).
    exists txn. split; [done|]. right. by split.
Qed.


Lemma outside_iqr_nan transactions txn :
  PrimFloat.is_nan (Transaction.amount txn) = true →
  outside_iqr transactions txn = false.
Proof.
  intros Hn. unfold outside_iqr.
  by rewrite (ltb_nan_l _ _ Hn), (ltb_nan_r _ _ Hn).
Qed.

(** X9 (a missing amount).  When the amount of some transaction is nan,
    every z-score is nan, so the z-score method flags nothing; a transaction
    whose amount is nan is never outside the IQR bounds; and every row of the
    statistical output is then the iqr row of a transaction with a proper
    amount. *)
Theorem missing_amount_disables_z_score (transactions : list Transaction)
    (missing : Transaction) :
  missing ∈ transactions →
  PrimFloat.is_nan (Transaction.amount missing) = true →
  z_anomalies transactions = []
  ∧ (∀ txn, PrimFloat.is_nan (Transaction.amount txn) = true →
       outside_iqr transactions txn = false)
  ∧ Forall (fun a => ∃ txn, txn ∈ transactions
              ∧ PrimFloat.is_nan (Transaction.amount txn) = false
              ∧ outside_iqr transactions txn = true
              ∧ a = iqr_anomaly transactions txn)
      (detect_anomalies_statistical transactions).
Proof.
  intros Hin Hn.
  assert (Hz : ∀ txn, (3 <? z_score_of transactions txn)%float = false).
  { intros txn. apply ltb_nan_r. unfold z_score_of. apply abs_nan.
    apply (standard_score_nan _ (Transaction.amount missing)); [|done].
    unfold amounts. apply list_elem_of_fmap. by exists missing. }
  assert (Hza : z_anomalies transactions = []).
  { rewrite z_anomalies_filter.
    rewrite (filter_all_false _ transactions); [done|]. intros txn _. apply Hz. }
  split; [done|]. split; [intros txn; apply outside_iqr_nan|].
  unfold detect_anomalies_statistical.
  destruct (length transactions <? 5)%nat; [done|]. rewrite Hza. simpl.
  destruct (iqr_loop_added transactions (iqr_anomalies transactions) [])
    as (added & -> & Hadded & _).
  simpl. apply Forall_forall. intros a Ha.
  destruct (Hadded a Ha) as (txn & [Ht Ho]%elem_of_filter_bool & -> & _).
  exists txn. split; [done|]. split; [|done].
  destruct (PrimFloat.is_nan (Transaction.amount txn)) eqn:Hnan; [|done].
  by rewrite (outside_iqr_nan transactions txn Hnan) in Ho.
Qed.

Lemma missing_amount_disables_z_score_witness :
  z_anomalies transactions_with_nan = []
  ∧ detect_anomalies_statistical transactions_with_nan
    = [iqr_anomaly transactions_with_nan (txn_amount 6 "T6" 100000)].
Proof.
  destruct (missing_amount_disables_z_score transactions_with_nan txn_nan) as [Hz _].
  - unfold transactions_with_nan. do 2 right. left.
  - vm_compute. reflexivity.
  - split; [exact Hz|]. vm_compute. reflexivity.
Defined.

(** * The rows of the ML detector *)

Lemma NoDup_txn_id_lookup (transactions : list Transaction) i j t u :
  NoDup (map Transaction.txn_id transactions) →
  transactions !! i = Some t → transactions !! j = Some u →
  Transaction.txn_id t = Transaction.txn_id u → i = j.
Proof.
  intros Hnd Hi Hj Heq.
  eapply NoDup_lookup; [apply Hnd| |]; rewrite list_lookup_fmap.
  - by rewrite Hi.
  - by rewrite Hj, Heq.
Qed.

Lemma iso_forest_loop_rows transactions rows idx anomalies out :
  iso_forest_loop transactions idx rows anomalies = Some out →
  ∃ added, out = anomalies ++ added
    ∧ (∀ a, a ∈ added ↔
         ∃ j s txn, rows !! j = Some ((-1)%Z, s)
                    ∧ transactions !! (idx + j) = Some txn ∧ a = iso_row txn s)
    ∧ length added ≤ length rows.
Proof.
  revert idx anomalies out.
  induction rows as [|[prediction score] rows IH]; intros idx anomalies out; simpl.
  { intros [= <-]. exists []. rewrite app_nil_r. split; [done|]. split; [|done].
    intros a. split; [by rewrite elem_of_nil|].
    intros (j & s & txn & Hj & _). by rewrite lookup_nil in Hj. }
  destruct (Z.eqb_spec prediction (-1)) as [->|Hne].
  - destruct (transactions !! idx) as [txn|] eqn:Htxn; [|done].
    intros (added & -> & Hrows & Hlen)%IH.
    exists (iso_row txn score :: added). rewrite <- app_assoc.
    split; [done|]. split; [|simpl; lia].
    intros a. rewrite elem_of_cons, Hrows. split.
    + intros [->|(j & s & t & Hj & Ht & ->)].
      * exists 0, score, txn. by rewrite Nat.add_0_r.
      * exists (S j), s, t. replace (idx + S j) with (S idx + j) by lia. done.
    + intros ([|j] & s & t & Hj & Ht & ->); simpl in Hj.
      * left. rewrite Nat.add_0_r in Ht. congruence.
      * right. exists j, s, t. replace (S idx + j) with (idx + S j) by lia. done.
  - intros (added & -> & Hrows & Hlen)%IH.
    exists added. split; [done|]. split; [|lia].
    intros a. rewrite Hrows. split.
    + intros (j & s & t & Hj & Ht & ->).
      exists (S j), s, t. replace (idx + S j) with (S idx + j) by lia. done.
    + intros ([|j] & s & t & Hj & Ht & ->); simpl in Hj; [congruence|].
      exists j, s, t. replace (S idx + j) with (idx + S j) by lia. done.
Qed.

Lemma iso_forest_loop_returns transactions rows idx anomalies :
  idx + length rows ≤ length transactions →
  is_Some (iso_forest_loop transactions idx rows anomalies).
Proof.
  revert idx anomalies.
  induction rows as [|[prediction score] rows IH]; intros idx anomalies Hlen; simpl.
  { by eexists. }
  simpl in Hlen.
  destruct (prediction =? -1)%Z; [|apply IH; lia].
  destruct (lookup_lt_is_Some_2 transactions idx) as [txn ->]; [lia|].
  apply IH. lia.
Qed.

Lemma already_flagged_app anomalies added txn_id :
  already_flagged (anomalies ++ added) txn_id
  = already_flagged anomalies txn_id || already_flagged added txn_id.
Proof. unfold already_flagged. apply existsb_app. Qed.

Lemma svm_loop_rows transactions rows idx anomalies out :
  svm_loop transactions idx rows anomalies = Some out →
  ∃ added, out = anomalies ++ added
    ∧ (∀ a, a ∈ added →
         ∃ j s txn, rows !! j = Some ((-1)%Z, s)
                    ∧ transactions !! (idx + j) = Some txn ∧ a = svm_row txn s
                    ∧ already_flagged anomalies (Transaction.txn_id txn) = false)
    ∧ (NoDup (map Transaction.txn_id transactions) →
       ∀ j s txn, rows !! j = Some ((-1)%Z, s) →
         transactions !! (idx + j) = Some txn →
         already_flagged anomalies (Transaction.txn_id txn) = false →
         svm_row txn s ∈ added)
    ∧ length added ≤ length rows.
Proof.
  revert idx anomalies out.
  induction rows as [|[prediction score] rows IH]; intros idx anomalies out; simpl.
  { intros [= <-]. exists []. rewrite app_nil_r. split; [done|].
    split; [intros a; by rewrite elem_of_nil|]. split; [|done].
    intros _ j s txn Hj. by rewrite lookup_nil in Hj. }
  destruct (Z.eqb_spec prediction (-1)) as [->|Hne].
  - destruct (transactions !! idx) as [txn|] eqn:Htxn; [|done].
    destruct (already_flagged anomalies (Transaction.txn_id txn)) eqn:Hf.
    + intros (added & -> & Hrows & Hall & Hlen)%IH.
      exists added. split; [done|]. split; [|split; [|lia]].
      * intros a (j & s & t & Hj & Ht & -> & Hno)%Hrows.
        exists (S j), s, t. replace (idx + S j) with (S idx + j) by lia. done.
      * intros Hnd [|j] s t Hj Ht Hno; simpl in Hj.
        -- rewrite Nat.add_0_r in Ht. congruence.
        -- apply (Hall Hnd j s t); [done| |done].
           by replace (S idx + j) with (idx + S j) by lia.
    + intros (added & -> & Hrows & Hall & Hlen)%IH.
      exists (svm_row txn score :: added). rewrite <- app_assoc.
      split; [done|]. split; [|split; [|simpl; lia]].
      * intros a [->|(j & s & t & Hj & Ht & -> & Hno)%Hrows]%elem_of_cons.
        -- exists 0, score, txn. by rewrite Nat.add_0_r.
        -- exists (S j), s, t. replace (idx + S j) with (S idx + j) by lia.
           rewrite already_flagged_app in Hno.
           by apply orb_false_elim in Hno as [? _].
      * intros Hnd [|j] s t Hj Ht Hno; simpl in Hj.
        -- rewrite Nat.add_0_r in Ht. simplify_eq. by left.
        -- right. apply (Hall Hnd j s t); [done| |].
           { by replace (S idx + j) with (idx + S j) by lia. }
           rewrite already_flagged_app, Hno. simpl.
           destruct (String.eqb_spec (Transaction.txn_id t) (Transaction.txn_id txn))
             as [Heq|Hne]; [|done].
           pose proof (NoDup_txn_id_lookup _ _ _ _ _ Hnd Ht Htxn Heq). lia.
  - intros (added & -> & Hrows & Hall & Hlen)%IH.
    exists added. split; [done|]. split; [|split; [|lia]].
    + intros a (j & s & t & Hj & Ht & -> & Hno)%Hrows.
      exists (S j), s, t. replace (idx + S j) with (S idx + j) by lia. done.
    + intros Hnd [|j] s t Hj Ht Hno; simpl in Hj; [congruence|].
      apply (Hall Hnd j s t); [done| |done].
      by replace (S idx + j) with (idx + S j) by lia.
Qed.

Lemma svm_loop_returns transactions rows idx anomalies :
  idx + length rows ≤ length transactions →
  is_Some (svm_loop transactions idx rows anomalies).
Proof.
  revert idx anomalies.
  induction rows as [|[prediction score] rows IH]; intros idx anomalies Hlen; simpl.
  { by eexists. }
  simpl in Hlen.
  destruct (prediction =? -1)%Z; [|apply IH; lia].
  destruct (lookup_lt_is_Some_2 transactions idx) as [txn ->]; [lia|].
  destruct (already_flagged _ _); apply IH; lia.
Qed.

(** Every row of the ML output stands for a transaction. *)
Lemma detect_anomalies_ml_rows ext transactions out :
  detect_anomalies_ml ext transactions = Some out → Forall (ml_row transactions) out.
Proof.
  destruct (Nat.lt_ge_cases (length transactions) 10) as [Hlt|Hge].
  { unfold detect_anomalies_ml. rewrite (proj2 (Nat.ltb_lt _ _) Hlt). by intros [= <-]. }
  intros Hout.
  destruct (detect_anomalies_ml_inv ext transactions out Hge Hout)
    as (X & ip & isc & A1 & sp & ssc & _ & _ & _ & Hiso & _ & _ & Hsvm).
  apply iso_forest_loop_rows in Hiso as (added1 & -> & Hrows1 & _).
  apply svm_loop_rows in Hsvm as (added2 & -> & Hrows2 & _ & _).
  rewrite app_nil_l. apply Forall_app. split; apply Forall_forall; intros a Ha.
  - apply Hrows1 in Ha as (j & s & txn & _ & Ht & ->).
    exists txn, s. split; [by eapply list_elem_of_lookup_2|by left].
  - apply Hrows2 in Ha as (j & s & txn & _ & Ht & -> & _).
    exists txn, s. split; [by eapply list_elem_of_lookup_2|by right].
Qed.

(** X10 (the ML detector returns).  When the scaler and the two estimators
    return, with at most one prediction per transaction, the ML detector
    returns a list; each of its rows is an isolation-forest or a
    one-class-SVM row of a transaction of the input, and there are at most as
    many rows as predictions. *)
Theorem ml_detector_returns (ext : External) (transactions : list Transaction)
    (features_scaled : list (list float))
    (iso_predictions svm_predictions : list Z) (iso_scores svm_scores : list float) :
  scaler_fit_transform ext (features ext transactions) = Some features_scaled →
  iso_forest_fit_predict ext features_scaled = Some iso_predictions →
  iso_forest_decision_function ext features_scaled = Some iso_scores →
  svm_fit_predict ext features_scaled = Some svm_predictions →
  svm_decision_function ext features_scaled = Some svm_scores →
  length iso_predictions ≤ length transactions →
  length svm_predictions ≤ length transactions →
  ∃ out, detect_anomalies_ml ext transactions = Some out
    ∧ Forall (ml_row transactions) out
    ∧ length out ≤ length iso_predictions + length svm_predictions.
Proof.
  intros HX Hip Hisc Hsp Hssc Hli Hls. unfold detect_anomalies_ml.
  destruct (length transactions <? 10)%nat.
  { exists []. split; [done|]. split; [done|simpl; lia]. }
  rewrite HX. simpl. rewrite Hip. simpl. rewrite Hisc. simpl.
  assert (Hci : length (combine iso_predictions iso_scores) ≤ length iso_predictions).
  { rewrite length_combine. lia. }
  assert (Hcs : length (combine svm_predictions svm_scores) ≤ length svm_predictions).
  { rewrite length_combine. lia. }
  destruct (iso_forest_loop_returns transactions (combine iso_predictions iso_scores) 0 [])
    as [A1 HA1]; [simpl; lia|].
  rewrite HA1. simpl. rewrite Hsp. simpl. rewrite Hssc. simpl.
  destruct (svm_loop_returns transactions (combine svm_predictions svm_scores) 0 A1)
    as [out Hout]; [simpl; lia|].
  exists out. split; [done|].
  apply iso_forest_loop_rows in HA1 as (added1 & -> & Hrows1 & Hlen1).
  apply svm_loop_rows in Hout as (added2 & -> & Hrows2 & _ & Hlen2).
  simpl in *. split.
  - apply Forall_app. split; apply Forall_forall; intros a Ha.
    + apply Hrows1 in Ha as (j & s & txn & _ & Ht & ->).
      exists txn, s. split; [by eapply list_elem_of_lookup_2|by left].
    + apply Hrows2 in Ha as (j & s & txn & _ & Ht & -> & _).
      exists txn, s. split; [by eapply list_elem_of_lookup_2|by right].
  - rewrite length_app. lia.
Qed.

Lemma ml_detector_returns_witness :
  ∃ out, detect_anomalies_ml two_estimators twelve_transactions = Some out
    ∧ Forall (ml_row twelve_transactions) out
    ∧ length out ≤ 12 + 12.
Proof.
  apply (ml_detector_returns two_estimators twelve_transactions
           (features two_estimators twelve_transactions)
           (map (fun txn => if (500 <? Transaction.amount txn)%float then (-1)%Z else 1%Z)
              twelve_transactions)
           (map (fun txn => if (3 <? Transaction.amount txn)%float then (-1)%Z else 1%Z)
              twelve_transactions)
           (map (fun _ => (-0.25)%float) twelve_transactions)
           (map (fun _ => (-0.5)%float) twelve_transactions));
    try reflexivity; simpl; lia.
Defined.

Lemma flagged_ids_app a b : flagged_ids (a ++ b) = flagged_ids a ++ flagged_ids b.
Proof. apply map_app. Qed.

(** X11 (one ML row per transaction).  With pairwise distinct transaction
    ids and at least 10 transactions, no id appears twice in the output of
    the ML detector: a transaction the isolation forest labels an outlier has
    exactly one row, the isolation-forest row with the absolute value of its
    score, also when the one-class SVM labels it too; a transaction only the
    SVM labels has exactly its SVM row; a transaction neither labels has
    none. *)
Theorem ml_one_row_per_transaction (ext : External) (transactions : list Transaction)
    (features_scaled : list (list float))
    (iso_predictions svm_predictions : list Z) (iso_scores svm_scores : list float)
    (out : list AnomalyResult) :
  NoDup (map Transaction.txn_id transactions) →
  10 ≤ length transactions →
  scaler_fit_transform ext (features ext transactions) = Some features_scaled →
  iso_forest_fit_predict ext features_scaled = Some iso_predictions →
  iso_forest_decision_function ext features_scaled = Some iso_scores →
  svm_fit_predict ext features_scaled = Some svm_predictions →
  svm_decision_function ext features_scaled = Some svm_scores →
  detect_anomalies_ml ext transactions = Some out →
  NoDup (map AnomalyResult.transaction_id out)
  ∧ ∀ idx txn, transactions !! idx = Some txn →
      let rows :=
        List.filter (fun a => String.eqb (AnomalyResult.transaction_id a)
                                (Transaction.txn_id txn)) out in
      (∀ score, outlier_at iso_predictions iso_scores idx score →
         rows = [iso_row txn score])
      ∧ ((∀ score, ¬ outlier_at iso_predictions iso_scores idx score) →
         ∀ score, outlier_at svm_predictions svm_scores idx score →
           rows = [svm_row txn score])
      ∧ ((∀ score, ¬ outlier_at iso_predictions iso_scores idx score) →
         (∀ score, ¬ outlier_at svm_predictions svm_scores idx score) →
         rows = []).
Proof.
  intros Hnd Hlen HX Hip Hisc Hsp Hssc Hout.
  destruct (detect_anomalies_ml_inv ext transactions out Hlen Hout)
    as (X & ip & isc & A1 & sp & ssc & HX' & Hip' & Hisc' & Hiso & Hsp' & Hssc' & Hsvm).
  rewrite HX in HX'. injection HX' as <-.
  rewrite Hip in Hip'. injection Hip' as <-.
  rewrite Hisc in Hisc'. injection Hisc' as <-.
  rewrite Hsp in Hsp'. injection Hsp' as <-.
  rewrite Hssc in Hssc'. injection Hssc' as <-.
  assert (Hnd1 : NoDup (flagged_ids A1)).
  { destruct (iso_forest_loop_spec _ _ _ _ _ Hiso) as (added & -> & Hsub & _).
    simpl. rewrite drop_0 in Hsub. by apply (sublist_NoDup _ _ Hnd Hsub). }
  assert (Hndout : NoDup (flagged_ids out)).
  { destruct (svm_loop_spec _ _ _ _ _ Hsvm) as (_ & Hnd2 & _). by apply Hnd2. }
  apply iso_forest_loop_rows in Hiso as (added1 & -> & Hrows1 & _).
  apply svm_loop_rows in Hsvm as (added2 & -> & Hrows2 & Hall2 & _).
  rewrite app_nil_l in *. specialize (Hall2 Hnd).
  split; [exact Hndout|].
  intros idx txn Htxn. cbv zeta. unfold outlier_at.
  assert (Hiso_id : ∀ a, a ∈ added1 →
    AnomalyResult.transaction_id a = Transaction.txn_id txn →
    ∃ s, combine iso_predictions iso_scores !! idx = Some ((-1)%Z, s)).
  { intros a (j & s & t & Hj & Ht & ->)%Hrows1 Hid. simpl in Hid, Ht.
    pose proof (NoDup_txn_id_lookup _ _ _ _ _ Hnd Ht Htxn Hid) as ->.
    by exists s. }
  assert (Hsvm_id : ∀ a, a ∈ added2 →
    AnomalyResult.transaction_id a = Transaction.txn_id txn →
    ∃ s, combine svm_predictions svm_scores !! idx = Some ((-1)%Z, s)).
  { intros a (j & s & t & Hj & Ht & -> & _)%Hrows2 Hid. simpl in Hid, Ht.
    pose proof (NoDup_txn_id_lookup _ _ _ _ _ Hnd Ht Htxn Hid) as ->.
    by exists s. }
  assert (Hfresh : (∀ s, combine iso_predictions iso_scores !! idx ≠ Some ((-1)%Z, s)) →
    already_flagged added1 (Transaction.txn_id txn) = false).
  { intros Hno. apply not_true_iff_false.
    intros (a & Hid & Ha)%already_flagged_spec%list_elem_of_fmap.
    destruct (Hiso_id a Ha) as [s Hs]; [done|]. by apply (Hno s). }
  split; [|split].
  - intros s Hs.
    apply (filter_key_unique AnomalyResult.transaction_id _ (iso_row txn s) Hndout).
    apply elem_of_app. left. apply Hrows1. by exists idx, s, txn.
  - intros Hno s Hs.
    apply (filter_key_unique AnomalyResult.transaction_id _ (svm_row txn s) Hndout).
    apply elem_of_app. right. apply (Hall2 idx s txn); [done|done|]. by apply Hfresh.
  - intros Hno1 Hno2. apply filter_key_none.
    intros (a & Hid & [Ha|Ha]%elem_of_app)%list_elem_of_fmap.
    + destruct (Hiso_id a Ha) as [s Hs]; [done|]. by apply (Hno1 s).
    + destruct (Hsvm_id a Ha) as [s Hs]; [done|]. by apply (Hno2 s).
Qed.

Lemma ml_one_row_per_transaction_witness :
  ∃ out,
    detect_anomalies_ml two_estimators twelve_transactions = Some out
    ∧ List.filter (fun a => String.eqb (AnomalyResult.transaction_id a) "T11") out
      = [iso_row (txn_amount 11 "T11" 1000) (-0.25)]
    ∧ List.filter (fun a => String.eqb (AnomalyResult.transaction_id a) "T10") out
      = [svm_row (txn_amount 10 "T10" 5) (-0.5)].
Proof.
  eexists. split; [vm_compute; reflexivity|].
  destruct (ml_one_row_per_transaction two_estimators twelve_transactions
    (features two_estimators twelve_transactions)
    (map (fun txn => if (500 <? Transaction.amount txn)%float then (-1)%Z else 1%Z)
       twelve_transactions)
    (map (fun txn => if (3 <? Transaction.amount txn)%float then (-1)%Z else 1%Z)
       twelve_transactions)
    (map (fun _ => (-0.25)%float) twelve_transactions)
    (map (fun _ => (-0.5)%float) twelve_transactions)
    _ ltac:(apply (bool_decide_unpack _); vm_compute; exact I)
    ltac:(simpl; lia) eq_refl eq_refl eq_refl eq_refl eq_refl eq_refl) as [_ Hrows].
  split.
  - destruct (Hrows 11 (txn_amount 11 "T11" 1000) eq_refl) as [H1 _].
    apply (H1 (-0.25)%float). reflexivity.
  - destruct (Hrows 10 (txn_amount 10 "T10" 5) eq_refl) as (_ & H2 & _).
    apply (H2 ltac:(intros s; vm_compute; discriminate) (-0.5)%float). reflexivity.
Defined.

(** * Further properties of the quality report *)

Lemma existsb_is_some (values : list (option string)) :
  existsb (fun x => match x with Some _ => true | None => false end) values = true
  ↔ ∃ s, Some s ∈ values.
Proof.
  rewrite existsb_exists. split.
  - intros ([s|] & Hin & Hs); [|done]. exists s. by apply list_elem_of_In.
  - intros [s Hs]. exists (Some s). split; [by apply list_elem_of_In|done].
Qed.

Lemma check_amount_none df st :
  check_amount df st = None ↔ amount_holds_string df.
Proof.
  unfold check_amount, amount_holds_string.
  destruct (get_column "amount" (columns df)) as [[values|values]|]; simpl.
  - split; [by destruct (0 <? _)%nat|]. intros (v & s & [=] & _).
  - destruct (existsb _ values) eqn:He; simpl.
    + split; [|done]. intros _. apply existsb_is_some in He as [s Hs].
      by exists values, s.
    + split; [done|]. intros (v & s & [= <-] & Hs).
      assert (existsb (fun x => match x with Some _ => true | None => false end) values
              = true) by (apply existsb_is_some; by exists s).
      congruence.
  - split; [done|]. intros (v & s & [=] & _).
Qed.

(** X12 (when the quality report fails).  [calculate_data_quality] raises
    exactly when the table has an [amount] column of strings that holds at
    least one string: the comparison with 0 is the only step that can
    fail. *)
Theorem quality_raises_iff_string_amount (ext : External) (df : DataFrame)
    (dataset_name : string) :
  calculate_data_quality ext df dataset_name = None ↔ amount_holds_string df.
Proof.
  rewrite <- (check_amount_none df ([], 100%float)).
  unfold calculate_data_quality.
  destruct (check_amount df ([], 100%float)) as [st|]; simpl; [|done].
  by destruct (check_date ext df st).
Qed.

Lemma check_amount_some df st st' :
  check_amount df st = Some st' →
  st' = if (0 <? negative_count df)%nat
        then (st.1 ++ [pretty (negative_count df) +:+ " negative amounts found"],
              (st.2 - 10)%float)
        else st.
Proof.
  unfold check_amount, negative_count.
  destruct (get_column "amount" (columns df)) as [[values|values]|]; simpl.
  - destruct (0 <? _)%nat; congruence.
  - destruct (existsb _ values); simpl; [done|congruence].
  - congruence.
Qed.

Lemma check_date_spec ext df st :
  check_date ext df st
  = if date_fails ext df
    then (st.1 ++ ["Inconsistent date formats"], (st.2 - 15)%float)
    else st.
Proof.
  unfold check_date, date_fails.
  destruct (get_column "date" (columns df)) as [c|]; [|done].
  by destruct (to_datetime ext c).
Qed.

(** X13 (the consistency score).  A quality report has consistency_score
    100, 90, 85 or 75: 10 is taken off when the amount column holds a negative
    number and 15 when the date column fails to parse; the issues are the
    message with the number of negative amounts, then the message on dates,
    each when its deduction was made; and the list of issues is empty exactly
    when the score is 100. *)
Theorem consistency_score_cases (ext : External) (df : DataFrame)
    (dataset_name : string) (report : DataQualityReport) :
  calculate_data_quality ext df dataset_name = Some report →
  let negative := (0 <? negative_count df)%nat in
  DataQualityReport.consistency_score report
  = (match negative, date_fails ext df with
     | false, false => 100
     | true, false => 90
     | false, true => 85
     | true, true => 75
     end)%float
  ∧ DataQualityReport.issues report
    = (if negative
       then [pretty (negative_count df) +:+ " negative amounts found"] else [])
      ++ (if date_fails ext df then ["Inconsistent date formats"] else [])
  ∧ (DataQualityReport.issues report = []
     ↔ DataQualityReport.consistency_score report = 100%float).
Proof.
  unfold calculate_data_quality.
  destruct (check_amount df ([], 100%float)) as [st|] eqn:Ha; simpl; [|done].
  apply check_amount_some in Ha. rewrite check_date_spec.
  destruct (0 <? negative_count df)%nat, (date_fails ext df); subst st; simpl;
    intros [= <-]; simpl;
    (split; [vm_compute; reflexivity|]); (split; [reflexivity|]);
    split; try done; intros H; apply (f_equal Prim2SF) in H; vm_compute in H;
    discriminate.
Qed.

Lemma consistency_score_cases_witness :
  DataQualityReport.consistency_score
    <$> calculate_data_quality example_external one_null_row_frame "transactions"
  = Some 75%float.
Proof.
  destruct (calculate_data_quality example_external one_null_row_frame "transactions")
    as [report|] eqn:Hr; [|vm_compute in Hr; discriminate].
  destruct (consistency_score_cases _ _ _ _ Hr) as [Hc _].
  simpl. f_equal. exact Hc.
Defined.

Lemma count_duplicated_le seen rows : count_duplicated seen rows ≤ length rows.
Proof.
  revert seen. induction rows as [|r rows IH]; intros seen; simpl; [done|].
  specialize (IH (seen ++ [r])). destruct (existsb _ seen); lia.
Qed.

(** X14 (duplicates).  A quality report counts the rows of the table as
    total_records, and its duplicate_count is below that number when the table
    has a row: the first row is never counted as a duplicate. *)
Theorem duplicate_count_below_total (ext : External) (df : DataFrame)
    (dataset_name : string) (report : DataQualityReport) :
  calculate_data_quality ext df dataset_name = Some report →
  DataQualityReport.total_records report = nrows df
  ∧ DataQualityReport.duplicate_count report ≤ nrows df - 1.
Proof.
  unfold calculate_data_quality.
  destruct (check_amount df ([], 100%float)) as [st|]; simpl; [|done].
  destruct (check_date ext df st) as [consistency_issues consistency_score].
  intros [= <-]. simpl. split; [done|].
  unfold duplicated_sum. destruct (nrows df) as [|n]; [done|].
  rewrite <- cons_seq. simpl.
  pose proof (count_duplicated_le [row_at df 0] (map (row_at df) (seq 1 n))) as H.
  rewrite length_map, length_seq in H. lia.
Qed.

Lemma duplicate_count_below_total_witness :
  ∃ report,
    calculate_data_quality example_external one_null_row_frame "transactions" = Some report
    ∧ DataQualityReport.total_records report = 4
    ∧ DataQualityReport.duplicate_count report ≤ 3.
Proof.
  eexists. split; [vm_compute; reflexivity|].
  apply (duplicate_count_below_total example_external one_null_row_frame "transactions").
  vm_compute. reflexivity.
Defined.

Lemma count_sum_empty_columns (cols : list (string * column)) :
  Forall (fun nc => column_length nc.2 = 0) cols →
  fold_right (fun nc acc => count_non_null nc.2 + acc) 0 cols = 0.
Proof.
  induction 1 as [|[name c] cols Hc _ IH]; [done|]. simpl. rewrite IH.
  destruct c as [values|values]; destruct values; simpl in *; done.
Qed.

Lemma round2_nan x : PrimFloat.is_nan x = true → PrimFloat.is_nan (round2 x) = true.
Proof.
  intros Hx. unfold round2. apply div_nan_l.
  assert (Hm : PrimFloat.is_nan (x * 100) = true).
  { apply is_nan_SF. rewrite FloatAxioms.mul_spec.
    apply is_nan_SF in Hx. by rewrite Hx. }
  unfold rint. by rewrite (ltb_nan_l _ _ (abs_nan _ Hm)).
Qed.

(** X15 (a table without rows).  On a table with no rows the quality
    calculation does not raise: it reports 0 records and 0 duplicates, and its
    completeness and quality scores are nan, the result of dividing 0 by
    0. *)
Theorem empty_table_scores_nan (ext : External) (df : DataFrame)
    (dataset_name : string) :
  nrows df = 0 →
  Forall (fun nc => column_length nc.2 = 0) (columns df) →
  ∃ report,
    calculate_data_quality ext df dataset_name = Some report
    ∧ DataQualityReport.total_records report = 0
    ∧ DataQualityReport.duplicate_count report = 0
    ∧ PrimFloat.is_nan (DataQualityReport.completeness_score report) = true
    ∧ PrimFloat.is_nan (DataQualityReport.quality_score report) = true.
Proof.
  intros Hrows Hcols. unfold calculate_data_quality.
  destruct (check_amount df ([], 100%float)) as [st|] eqn:Ha; simpl.
  2:{ apply check_amount_none in Ha as (values & s & Hc & Hs). exfalso.
      assert (Hin : ("amount", ObjectColumn values) ∈ columns df).
      { clear -Hc. induction (columns df) as [|[n c] cols IH]; [done|].
        simpl in Hc. destruct (String.eqb_spec n "amount") as [->|_].
        - injection Hc as ->. by left.
        - right. by apply IH. }
      rewrite Forall_forall in Hcols. specialize (Hcols _ Hin). simpl in Hcols.
      destruct values; [by apply elem_of_nil in Hs|done]. }
  destruct (check_date ext df st) as [consistency_issues consistency_score].
  eexists. split; [done|]. simpl.
  unfold duplicated_sum, count_sum. rewrite Hrows, (count_sum_empty_columns _ Hcols).
  simpl. split; [done|]. split; [done|].
  assert (Hc : PrimFloat.is_nan (float_of_nat 0 / float_of_nat 0 * 100) = true)
    by (vm_compute; reflexivity).
  split; [by apply round2_nan|].
  apply round2_nan, div_nan_l. by apply add_nan_l.
Qed.

Lemma empty_table_scores_nan_witness :
  ∃ report,
    calculate_data_quality example_external
      (mkDataFrame 0 [("txn_id", ObjectColumn []); ("amount", FloatColumn [])])
      "transactions" = Some report
    ∧ PrimFloat.is_nan (DataQualityReport.quality_score report) = true.
Proof.
  destruct (empty_table_scores_nan example_external
              (mkDataFrame 0 [("txn_id", ObjectColumn []); ("amount", FloatColumn [])])
              "transactions") as (report & Hr & _ & _ & _ & Hq).
  - reflexivity.
  - repeat constructor.
  - by exists report.
Defined.

(** * Documents *)

Section DocumentFacts.

Context {datetime : Type}.
Variable isoformat : datetime → string.
Variable fromisoformat : string → option datetime.


Lemma to_iso_other (v : value datetime) : is_datetime v = false → to_iso isoformat v = v.
Proof. by destruct v. Qed.



(** X17 (round trip of a stored document).  When [fromisoformat] reads back
    what [isoformat] writes, preparing a [dict] whose [created_at] is a
    [datetime] and parsing the result gives that [datetime] back under
    [created_at]; a [datetime] under any other key stays an ISO string; so the
    round trip restores the document exactly when [created_at] is its only
    [datetime]. *)
Theorem stored_created_at_round_trip (items : gmap string (value datetime))
    (created_at : datetime) :
  (∀ d, fromisoformat (isoformat d) = Some d) →
  items !! "created_at" = Some (VDatetime created_at) →
  ∃ items',
    parse_from_mongo fromisoformat (prepare_for_mongo isoformat (VDict items))
    = Some (VDict items')
    ∧ items' !! "created_at" = Some (VDatetime created_at)
    ∧ (∀ key d, key ≠ "created_at" → items !! key = Some (VDatetime d) →
         items' !! key = Some (VStr (isoformat d)))
    ∧ ((∀ key d, items !! key = Some (VDatetime d) → key = "created_at") →
       items' = items).
Proof.
  intros Hiso Hc. simpl. rewrite lookup_fmap, Hc. simpl. rewrite Hiso.
  eexists. split; [done|]. split; [by rewrite lookup_insert_eq|]. split.
  - intros key d Hne Hk. rewrite lookup_insert_ne by done.
    by rewrite lookup_fmap, Hk.
  - intros Honly. apply map_eq. intros key.
    destruct (decide (key = "created_at")) as [->|Hne].
    + by rewrite lookup_insert_eq.
    + rewrite lookup_insert_ne by done. rewrite lookup_fmap.
      destruct (items !! key) as [v|] eqn:Hk; simpl; [|done].
      f_equal. apply to_iso_other. destruct v; try done.
      by specialize (Honly key d Hk).
Qed.

End DocumentFacts.

Lemma stored_created_at_round_trip_witness :
  ∃ items',
    parse_from_mongo (fun _ => Some tt)
      (prepare_for_mongo (fun _ => "2024-01-15T10:30:00+00:00") (VDict stored_result))
    = Some (VDict items')
    ∧ items' !! "created_at" = Some (VDatetime tt).
Proof.
  destruct (stored_created_at_round_trip (fun _ => "2024-01-15T10:30:00+00:00")
              (fun _ => Some tt) stored_result tt) as (items' & Hp & Hc & _).
  - by intros [].
  - reflexivity.
  - by exists items'.
Defined.

(** * Queries on the stored results *)

Lemma get_results_by_status db s :
  s ≠ "" →
  get_reconciliation_results db (Some s) None
  = List.filter (has_status s) (reconciliation_results db).
Proof.
  intros Hs. unfold get_reconciliation_results, condition.
  destruct (String.eqb_spec s "") as [?|_]; [done|]. simpl.
  apply filter_ext. intros r. apply andb_true_r.
Qed.

Lemma filter_none_length {A} (p : A → bool) (l : list A) :
  Forall (fun x => p x = false) l → length (List.filter p l) = 0.
Proof. induction 1 as [|x l Hx _ IH]; simpl; [done|]. by rewrite Hx. Qed.

Lemma filter_all_length {A} (p : A → bool) (l : list A) :
  Forall (fun x => p x = true) l → length (List.filter p l) = length l.
Proof. induction 1 as [|x l Hx _ IH]; simpl; [done|]. rewrite Hx. simpl. lia. Qed.

(** One of three tests holds of each element, and no two at once. *)
Lemma filter_three_length {A} (p q r : A → bool) (l : list A) :
  Forall (fun x => (p x = true ∧ q x = false ∧ r x = false)
                   ∨ (p x = false ∧ q x = true ∧ r x = false)
                   ∨ (p x = false ∧ q x = false ∧ r x = true)) l →
  length (List.filter p l) + length (List.filter q l) + length (List.filter r l)
  = length l.
Proof.
  induction 1 as [|x l Hx _ IH]; simpl; [done|].
  destruct Hx as [(-> & -> & ->)|[(-> & -> & ->)|(-> & -> & ->)]]; simpl; lia.
Qed.

Lemma verdict_status txn r :
  transaction_verdict txn r →
  (has_status "matched" r = true ∧ has_status "amount_mismatch" r = false
   ∧ has_status "missing_gl" r = false)
  ∨ (has_status "matched" r = false ∧ has_status "amount_mismatch" r = true
     ∧ has_status "missing_gl" r = false)
  ∨ (has_status "matched" r = false ∧ has_status "amount_mismatch" r = false
     ∧ has_status "missing_gl" r = true).
Proof.
  intros (_ & _ & _ & Hs). unfold has_status. simpl in Hs.
  destruct Hs as [<-|[<-|[<-|[]]]]; [left|right; left|right; right]; done.
Qed.

(** The results of a run, counted by status. *)
Lemma status_counts transactions gl_entries :
  let results := reconcile_results transactions gl_entries in
  let count s := length (List.filter (has_status s) results) in
  count "matched" + count "amount_mismatch" + count "missing_gl" = length transactions
  ∧ count "missing_transaction" + length transactions = length results
  ∧ length (List.filter is_claiming results) = count "matched" + count "amount_mismatch".
Proof.
  cbv zeta. unfold reconcile_results.
  destruct (transactions_loop_verdicts gl_entries transactions ([], ∅)) as (rs & Hrs & Hv).
  simpl in Hrs. rewrite Hrs.
  set (ms := missing_transactions _ _).
  assert (Hms : ∀ s, s ≠ "missing_transaction" →
    length (List.filter (has_status s) ms) = 0).
  { intros s Hs. apply filter_none_length, Forall_forall. intros r Hr.
    apply missing_transactions_status in Hr. unfold has_status. rewrite Hr.
    by destruct (String.eqb_spec "missing_transaction" s). }
  assert (Hmt : length (List.filter (has_status "missing_transaction") ms) = length ms).
  { apply filter_all_length, Forall_forall. intros r Hr.
    apply missing_transactions_status in Hr. unfold has_status. by rewrite Hr. }
  assert (Hcl : length (List.filter is_claiming ms) = 0).
  { apply filter_none_length, Forall_forall. intros r Hr.
    apply missing_transactions_status in Hr. unfold is_claiming. by rewrite Hr. }
  assert (Hst : Forall (fun r =>
      (has_status "matched" r = true ∧ has_status "amount_mismatch" r = false
       ∧ has_status "missing_gl" r = false)
      ∨ (has_status "matched" r = false ∧ has_status "amount_mismatch" r = true
         ∧ has_status "missing_gl" r = false)
      ∨ (has_status "matched" r = false ∧ has_status "amount_mismatch" r = false
         ∧ has_status "missing_gl" r = true)) rs).
  { clear -Hv. induction Hv as [|txn r l rs Hr _ IH]; constructor; [|done].
    by eapply verdict_status. }
  pose proof (filter_three_length _ _ _ rs Hst) as H3.
  assert (Hlen : length rs = length transactions) by (symmetry; by eapply Forall2_length).
  assert (Hrs_mt : length (List.filter (has_status "missing_transaction") rs) = 0).
  { apply filter_none_length. eapply Forall_impl; [exact Hst|]. simpl. intros r Hr.
    unfold has_status in *.
    destruct (String.eqb_spec (ReconciliationResult.status r) "missing_transaction")
      as [Heq|]; [|done].
    rewrite Heq in Hr. simpl in Hr.
    destruct Hr as [(H & _ & _)|[(_ & H & _)|(_ & _ & H)]]; discriminate. }
  assert (Hrs_cl : length (List.filter is_claiming rs)
    = length (List.filter (has_status "matched") rs)
      + length (List.filter (has_status "amount_mismatch") rs)).
  { clear -Hst. induction Hst as [|r rs Hr _ IH]; [done|]. simpl.
    unfold is_claiming. fold (has_status "matched" r). fold (has_status "amount_mismatch" r).
    destruct Hr as [(-> & -> & _)|[(-> & -> & _)|(-> & -> & _)]]; simpl;
      unfold is_claiming in IH; lia. }
  rewrite !List.filter_app, !length_app.
  rewrite !Hms by done. rewrite Hmt, Hcl, Hrs_mt, Hrs_cl. lia.
Qed.

(** X18 (querying the results of a run).  After a reconciliation run, the
    results returned for the statuses matched, amount_mismatch and missing_gl
    number as many as the transactions; together with those for
    missing_transaction they number the count the run returned; when the
    ledger [_id]s are distinct, those for matched, amount_mismatch and
    missing_transaction number as many as the ledger entries; and a query
    without parameters, or with empty strings, returns every result. *)
Theorem status_queries_partition_run (db : Database) :
  let run := reconcile_transactions db in
  let count s := length (get_reconciliation_results run.1 (Some s) None) in
  count "matched" + count "amount_mismatch" + count "missing_gl"
  = length (transactions db)
  ∧ count "matched" + count "amount_mismatch" + count "missing_gl"
    + count "missing_transaction" = run.2
  ∧ (NoDup (map GeneralLedgerEntry._id (general_ledger db)) →
     count "matched" + count "amount_mismatch" + count "missing_transaction"
     = length (general_ledger db))
  ∧ get_reconciliation_results run.1 None None = reconciliation_results run.1
  ∧ get_reconciliation_results run.1 (Some "") (Some "") = reconciliation_results run.1.
Proof.
  cbv zeta. unfold reconcile_transactions. cbn [fst snd].
  rewrite !get_results_by_status by done.
  rewrite exec_reconcile_writes. cbn [reconciliation_results].
  destruct (status_counts (transactions db) (general_ledger db)) as (H3 & Hmt & Hcl).
  split; [exact H3|]. split; [lia|]. split.
  - intros Hnd.
    pose proof (claim_count_conservation (transactions db) (general_ledger db) Hnd) as Hc.
    cbv zeta in Hc. lia.
  - unfold get_reconciliation_results. simpl.
    split; apply forallb_filter_id; by apply forallb_forall.
Qed.

Lemma filter_keys_skip {A} (key : A → string) (keys : list string) (x : A) (l : list A) :
  key x ∉ keys →
  fold_right (fun k acc => length (List.filter (fun y => String.eqb (key y) k) (x :: l)) + acc)
    0 keys
  = fold_right (fun k acc => length (List.filter (fun y => String.eqb (key y) k) l) + acc)
      0 keys.
Proof.
  induction keys as [|k keys IH]; [done|].
  intros [Hne Hk]%not_elem_of_cons.
  change (fold_right ?f ?a (k :: keys)) with (f k (fold_right f a keys)).
  cbv beta. rewrite (IH Hk). simpl.
  by rewrite (proj2 (String.eqb_neq _ _) Hne).
Qed.

Lemma filter_keys_step {A} (key : A → string) (keys : list string) (x : A) (l : list A) :
  NoDup keys → key x ∈ keys →
  fold_right (fun k acc => length (List.filter (fun y => String.eqb (key y) k) (x :: l)) + acc)
    0 keys
  = S (fold_right (fun k acc => length (List.filter (fun y => String.eqb (key y) k) l) + acc)
         0 keys).
Proof.
  induction keys as [|k keys IH]; intros Hnd Hx; [by apply elem_of_nil in Hx|].
  apply NoDup_cons in Hnd as [Hk Hnd].
  change (fold_right ?f ?a (k :: keys)) with (f k (fold_right f a keys)).
  cbv beta.
  destruct (String.eqb_spec (key x) k) as [Heq|Hne].
  - rewrite filter_keys_skip by by rewrite Heq. simpl.
    by rewrite (proj2 (String.eqb_eq _ _) Heq).
  - apply elem_of_cons in Hx as [?|Hx]; [done|].
    rewrite (IH Hnd Hx). simpl.
    rewrite (proj2 (String.eqb_neq _ _) Hne). lia.
Qed.

(** Selecting by each of the keys that occur splits a list. *)
Lemma filter_keys_length {A} (key : A → string) (keys : list string) (l : list A) :
  NoDup keys → Forall (fun x => key x ∈ keys) l →
  fold_right (fun k acc => length (List.filter (fun x => String.eqb (key x) k) l) + acc)
    0 keys
  = length l.
Proof.
  intros Hnd. induction 1 as [|x l Hx _ IH].
  - clear. by induction keys as [|k keys IH].
  - rewrite (filter_keys_step key keys x l Hnd Hx), IH. done.
Qed.

Lemma get_anomalies_by_method db m :
  m ≠ "" →
  get_anomalies db (Some m)
  = List.filter (fun a => String.eqb (AnomalyResult.detection_method a) m) (anomalies db).
Proof.
  intros Hm. unfold get_anomalies, condition.
  by destruct (String.eqb_spec m "").
Qed.

(** X19 (querying the anomalies of a run).  After an anomaly run that
    returned a count, the anomalies returned for the methods z_score, iqr,
    isolation_forest and one_class_svm number that count together, the first
    two numbering the output of the statistical detector; and a query without
    a method, or with the empty string, returns every anomaly. *)
Theorem method_queries_partition_run (ext : External) (db : Database) (found : nat) :
  let run := run_anomaly_detection ext db in
  let count m := length (get_anomalies run.1 (Some m)) in
  run.2 = Some found →
  count "z_score" + count "iqr" + count "isolation_forest" + count "one_class_svm"
  = found
  ∧ count "z_score" + count "iqr"
    = length (detect_anomalies_statistical (transactions db))
  ∧ get_anomalies run.1 None = anomalies run.1
  ∧ get_anomalies run.1 (Some "") = anomalies run.1.
Proof.
  cbv zeta. unfold run_anomaly_detection. cbn [fst snd].
  rewrite !get_anomalies_by_method by done.
  rewrite exec_anomaly_writes. cbn [anomalies].
  unfold all_anomalies.
  destruct (detect_anomalies_ml ext (transactions db)) as [ml|] eqn:Hml; [|done].
  simpl. intros [= <-].
  pose proof (statistical_rows (transactions db)) as Hstat.
  pose proof (detect_anomalies_ml_rows ext _ _ Hml) as Hrows.
  set (stat := detect_anomalies_statistical (transactions db)) in *.
  set (keys := ["z_score"; "iqr"; "isolation_forest"; "one_class_svm"]).
  assert (Hnd : NoDup keys) by (apply (bool_decide_unpack _); vm_compute; exact I).
  assert (Hs : Forall (fun a => AnomalyResult.detection_method a ∈ ["z_score"; "iqr"]) stat).
  { eapply Forall_impl; [exact Hstat|]. simpl.
    intros a (txn & _ & [[_ ->]|[_ ->]]); simpl; by repeat constructor. }
  assert (Hm : Forall (fun a => AnomalyResult.detection_method a
                                ∈ ["isolation_forest"; "one_class_svm"]) ml).
  { eapply Forall_impl; [exact Hrows|]. simpl.
    intros a (txn & s & _ & [->| ->]); simpl; by repeat constructor. }
  pose proof (filter_keys_length AnomalyResult.detection_method keys (stat ++ ml) Hnd) as Hall.
  simpl in Hall. rewrite <- Hall.
  2:{ apply Forall_app. split; (eapply Forall_impl; [eassumption|]); simpl;
        intros a [->|[->|[]%elem_of_nil]%elem_of_cons]%elem_of_cons;
        by repeat constructor. }
  split; [lia|]. split.
  - rewrite !List.filter_app, !length_app.
    assert (Hnone : ∀ m, m ∉ ["isolation_forest"; "one_class_svm"] →
      length (List.filter (fun a => String.eqb (AnomalyResult.detection_method a) m) ml) = 0).
    { intros m Hm'. apply filter_none_length. eapply Forall_impl; [exact Hm|]. simpl.
      intros a Ha. destruct (String.eqb_spec (AnomalyResult.detection_method a) m);
        [congruence|done]. }
    rewrite !Hnone by (apply (bool_decide_unpack _); vm_compute; exact I).
    assert (Hnd2 : NoDup ["z_score"; "iqr"])
      by (apply (bool_decide_unpack _); vm_compute; exact I).
    pose proof (filter_keys_length AnomalyResult.detection_method _ stat Hnd2 Hs) as H2.
    simpl in H2. lia.
  - unfold get_anomalies. simpl.
    split; apply forallb_filter_id; by apply forallb_forall.
Qed.

Lemma method_queries_partition_run_witness :
  let run := run_anomaly_detection two_estimators (mkDatabase twelve_transactions [] [] []) in
  ∃ found,
    run.2 = Some found
    ∧ length (get_anomalies run.1 (Some "z_score"))
      + length (get_anomalies run.1 (Some "iqr"))
      + length (get_anomalies run.1 (Some "isolation_forest"))
      + length (get_anomalies run.1 (Some "one_class_svm")) = found.
Proof.
  eexists. split; [vm_compute; reflexivity|].
  apply (method_queries_partition_run two_estimators
           (mkDatabase twelve_transactions [] [] [])).
  vm_compute. reflexivity.
Defined.

Lemma existsb_keys_length {A} (key : A → string) (keys : list string) (l : list A) :
  NoDup keys →
  length (List.filter (fun x => existsb (String.eqb (key x)) keys) l)
  = fold_right (fun k acc => length (List.filter (fun x => String.eqb (key x) k) l) + acc)
      0 keys.
Proof.
  intros Hnd. induction l as [|x l IH].
  - clear Hnd. by induction keys as [|k keys IHk].
  - destruct (existsb (String.eqb (key x)) keys) eqn:He.
    + pose proof He as He'.
      apply existsb_exists in He' as (k & Hin & Hk%String.eqb_eq).
      rewrite filter_keys_step; [|done|rewrite Hk; by apply list_elem_of_In].
      simpl. by rewrite He, <- IH.
    + rewrite filter_keys_skip; [by simpl; rewrite He|].
      intros Hin%list_elem_of_In. apply not_true_iff_false in He. apply He.
      apply existsb_exists. exists (key x). split; [done|apply String.eqb_refl].
Qed.

(** X20 (the dashboard after a run).  After a reconciliation run the
    dashboard's matched_count and unmatched_count add up to the count the run
    returned: every status the engine writes is counted once; matched_count is
    at most the number of transactions and, when the ledger [_id]s are
    distinct, at most the number of ledger entries; and the accuracy is the
    rounded percentage of matched results among the results of the run. *)
Theorem dashboard_counts_after_run (py : Builtins) (srv : Server) :
  let run := reconcile_transactions (collections srv) in
  let stats := get_dashboard_stats py (mkServer run.1 (data_quality srv)) in
  DashboardStats.matched_count stats + DashboardStats.unmatched_count stats = run.2
  ∧ DashboardStats.matched_count stats ≤ DashboardStats.total_transactions stats
  ∧ DashboardStats.total_transactions stats ≤ run.2
  ∧ (NoDup (map GeneralLedgerEntry._id (general_ledger (collections srv))) →
     DashboardStats.matched_count stats ≤ DashboardStats.total_gl_entries stats
     ∧ DashboardStats.total_gl_entries stats ≤ run.2)
  ∧ DashboardStats.reconciliation_accuracy stats
    = py_round2 py
        (float_of_nat (DashboardStats.matched_count stats)
         / float_of_nat (Nat.max run.2 1) * 100)%float.
Proof.
  cbv zeta. unfold reconcile_transactions, get_dashboard_stats. cbn [fst snd collections].
  rewrite exec_reconcile_writes.
  cbn [reconciliation_results transactions general_ledger DashboardStats.matched_count
       DashboardStats.unmatched_count DashboardStats.total_transactions
       DashboardStats.total_gl_entries DashboardStats.reconciliation_accuracy].
  set (db := collections srv).
  destruct (status_counts (transactions db) (general_ledger db)) as (H3 & Hmt & Hcl).
  set (results := reconcile_results (transactions db) (general_ledger db)) in *.
  unfold count_documents, status_in.
  rewrite (existsb_keys_length ReconciliationResult.status ["matched"] results)
    by (apply (bool_decide_unpack _); vm_compute; exact I).
  rewrite (existsb_keys_length ReconciliationResult.status
             ["missing_gl"; "missing_transaction"; "amount_mismatch"] results)
    by (apply (bool_decide_unpack _); vm_compute; exact I).
  cbn [fold_right]. fold (has_status "matched") (has_status "missing_gl")
    (has_status "missing_transaction") (has_status "amount_mismatch").
  rewrite !List.filter_true.
  assert (Hsum : length (List.filter (has_status "matched") results) + 0
    + (length (List.filter (has_status "missing_gl") results)
       + (length (List.filter (has_status "missing_transaction") results)
          + (length (List.filter (has_status "amount_mismatch") results) + 0)))
    = length results) by lia.
  split; [exact Hsum|]. split; [lia|]. split; [lia|]. split.
  - intros Hnd.
    pose proof (claim_count_conservation (transactions db) (general_ledger db) Hnd) as Hc.
    cbv zeta in Hc. fold results in Hc. lia.
  - by rewrite Hsum.
Qed.

(** * Uploads *)

Lemma mapM_seq_lookup {A} (f : nat → option A) (n : nat) (out : list A) :
  mapM f (seq 0 n) = Some out →
  length out = n ∧ ∀ i, i < n → ∃ y, out !! i = Some y ∧ f i = Some y.
Proof.
  intros Hm. apply mapM_Some in Hm.
  pose proof (Forall2_length _ _ _ Hm) as Hlen. rewrite length_seq in Hlen.
  split; [done|]. intros i Hi.
  destruct (Forall2_lookup_l _ _ _ i i Hm) as (y & Hy & Hf); [|by exists y].
  by apply lookup_seq.
Qed.

Lemma mapM_seq_None {A} (f : nat → option A) (n i : nat) :
  i < n → f i = None → mapM f (seq 0 n) = None.
Proof.
  intros Hi Hf. destruct (mapM f (seq 0 n)) as [out|] eqn:Hm; [|done].
  destruct (mapM_seq_lookup f n out Hm) as [_ Hall].
  destruct (Hall i Hi) as (y & _ & Hy). congruence.
Qed.

Lemma calculate_data_quality_name ext df name report :
  calculate_data_quality ext df name = Some report →
  DataQualityReport.dataset_name report = name
  ∧ DataQualityReport.total_records report = nrows df.
Proof.
  unfold calculate_data_quality.
  destruct (check_amount df ([], 100%float)) as [st|]; simpl; [|done].
  destruct (check_date ext df st). by intros [= <-].
Qed.

Lemma quality_raises_string_amount ext df name :
  amount_holds_string df → calculate_data_quality ext df name = None.
Proof.
  intros Hs. apply (check_amount_none df ([], 100%float)) in Hs.
  unfold calculate_data_quality. by rewrite Hs.
Qed.

(** The upsert stores the report and touches no report of another dataset;
    a collection with at most one report per dataset stays so. *)
Lemma replace_one_spec name doc docs :
  DataQualityReport.dataset_name doc = name →
  doc ∈ replace_one name doc docs
  ∧ List.filter (other_dataset name) (replace_one name doc docs)
    = List.filter (other_dataset name) docs
  ∧ length (replace_one name doc docs)
    = length docs
      + (if existsb (fun d => String.eqb (DataQualityReport.dataset_name d) name) docs
         then 0 else 1).
Proof.
  intros Hname. unfold other_dataset.
  induction docs as [|d docs (IHin & IHf & IHlen)]; simpl.
  - rewrite Hname, String.eqb_refl. simpl. split; [by left|done].
  - destruct (String.eqb (DataQualityReport.dataset_name d) name) eqn:Hd; simpl.
    + rewrite Hname, String.eqb_refl. simpl. split; [by left|]. split; [done|lia].
    + rewrite Hd. simpl. split; [by right|]. split; [by rewrite IHf|lia].
Qed.

Lemma transaction_of_row_id io df oid i txn :
  transaction_of_row io df oid i = Some txn → Transaction._id txn = oid.
Proof.
  unfold transaction_of_row. intros H.
  repeat (match type of H with
          | (mbind _ ?m = Some _) => destruct m; simpl in H; [|done]
          end).
  by injection H as <-.
Qed.

Lemma gl_entry_of_row_id io df oid i gl :
  gl_entry_of_row io df oid i = Some gl → GeneralLedgerEntry._id gl = oid.
Proof.
  unfold gl_entry_of_row. intros H.
  repeat (match type of H with
          | (mbind _ ?m = Some _) => destruct m; simpl in H; [|done]
          end).
  by injection H as <-.
Qed.

(** X21 (a successful transactions upload).  When the upload answers with
    a count, the file was read, has at least one row and the count is its
    number of rows; the collection holds exactly one document per row, in row
    order, built from the cells of that row; the report in the answer is the
    quality report of the file and is stored, the reports of other datasets
    being untouched; and the ledger, the reconciliation results and the
    anomalies are as before: results of earlier runs are not cleared. *)
Theorem upload_transactions_success (ext : External) (io : Csv) (ids : nat → N)
    (filename contents : string) (srv srv' : Server) (count : nat)
    (report : DataQualityReport) :
  upload_transactions ext io ids filename contents srv = (srv', Uploaded count report) →
  ∃ df,
    read_csv io contents = Some df
    ∧ count = nrows df ∧ 0 < count
    ∧ length (transactions (collections srv')) = count
    ∧ (∀ i, i < count →
         ∃ txn, transactions (collections srv') !! i = Some txn
                ∧ transaction_of_row io df (ids i) i = Some txn)
    ∧ calculate_data_quality ext df "transactions" = Some report
    ∧ report ∈ data_quality srv'
    ∧ List.filter (other_dataset "transactions") (data_quality srv')
      = List.filter (other_dataset "transactions") (data_quality srv)
    ∧ general_ledger (collections srv') = general_ledger (collections srv)
    ∧ reconciliation_results (collections srv') = reconciliation_results (collections srv)
    ∧ anomalies (collections srv') = anomalies (collections srv).
Proof.
  unfold upload_transactions.
  destruct (endswith filename ".csv"); cbn [negb]; [|done].
  destruct (read_csv io contents) as [df|]; [|done].
  cbv zeta.
  destruct (has_columns ["txn_id"; "date"; "amount"; "account_id"; "counterparty"] df);
    cbn [negb]; [|done].
  destruct (mapM _ (seq 0 (nrows df))) as [[|txn txns]|] eqn:Hm; [done| |done].
  destruct (calculate_data_quality ext df "transactions") as [quality_report|] eqn:Hq;
    [|done].
  intros [= <- <- <-]. exists df.
  destruct (mapM_seq_lookup _ _ _ Hm) as [Hlen Hrows].
  destruct (calculate_data_quality_name _ _ _ _ Hq) as [Hname _].
  destruct (replace_one_spec "transactions" quality_report (data_quality srv) Hname)
    as (Hin & Hother & _).
  simpl in *. repeat split; try done; try lia.
  intros i Hi. apply Hrows. lia.
Qed.

(** X22 (a failed transactions upload).  For a file that is accepted up
    to the column check: when it has no row, or a row whose amount does not
    convert, the upload answers with the error and leaves the collection
    empty, the transactions stored before being lost; when all rows convert
    but the quality calculation raises, it answers with the error although
    the collection now holds the rows of the file, and no report is
    stored. *)
Theorem failed_transactions_upload_effects (ext : External) (io : Csv) (ids : nat → N)
    (filename contents : string) (srv : Server) (df : DataFrame) :
  endswith filename ".csv" = true →
  read_csv io contents = Some df →
  has_columns ["txn_id"; "date"; "amount"; "account_id"; "counterparty"] df = true →
  let rows := mapM (fun i => transaction_of_row io df (ids i) i) (seq 0 (nrows df)) in
  let run := upload_transactions ext io ids filename contents srv in
  ((nrows df = 0 ∨ ∃ i, i < nrows df ∧ transaction_of_row io df (ids i) i = None) →
   run = (set_transactions [] srv, ProcessingError))
  ∧ (∀ transactions, rows = Some transactions → transactions ≠ [] →
       amount_holds_string df →
       run = (set_transactions transactions srv, ProcessingError)).
Proof.
  intros Hcsv Hread Hcols. cbv zeta. unfold upload_transactions.
  rewrite Hcsv, Hread. cbv zeta. rewrite Hcols. cbn [negb]. split.
  - intros [->|(i & Hi & Hrow)]; [done|].
    by rewrite (mapM_seq_None (fun i => transaction_of_row io df (ids i) i) _ i Hi Hrow).
  - intros txns -> Hne Hstr. destruct txns as [|txn txns]; [done|].
    apply (quality_raises_string_amount ext df "transactions") in Hstr.
    by rewrite Hstr.
Qed.

(** X23 (a successful ledger upload).  When the upload answers with a
    count, the file was read, has at least one row and the count is its number
    of rows; the ledger holds exactly one entry per row, in row order, built
    from the cells of that row, with distinct [_id]s when the inserted
    documents get distinct ones; the report in the answer is the quality
    report of the file and is stored, the reports of other datasets being
    untouched; and the transactions, the reconciliation results and the
    anomalies are as before. *)
Theorem upload_general_ledger_success (ext : External) (io : Csv) (ids : nat → N)
    (filename contents : string) (srv srv' : Server) (count : nat)
    (report : DataQualityReport) :
  upload_general_ledger ext io ids filename contents srv = (srv', Uploaded count report) →
  ∃ df,
    read_csv io contents = Some df
    ∧ count = nrows df ∧ 0 < count
    ∧ length (general_ledger (collections srv')) = count
    ∧ (∀ i, i < count →
         ∃ gl, general_ledger (collections srv') !! i = Some gl
               ∧ gl_entry_of_row io df (ids i) i = Some gl)
    ∧ ((∀ i j, i < count → j < count → ids i = ids j → i = j) →
       NoDup (map GeneralLedgerEntry._id (general_ledger (collections srv'))))
    ∧ calculate_data_quality ext df "general_ledger" = Some report
    ∧ report ∈ data_quality srv'
    ∧ List.filter (other_dataset "general_ledger") (data_quality srv')
      = List.filter (other_dataset "general_ledger") (data_quality srv)
    ∧ transactions (collections srv') = transactions (collections srv)
    ∧ reconciliation_results (collections srv') = reconciliation_results (collections srv)
    ∧ anomalies (collections srv') = anomalies (collections srv).
Proof.
  unfold upload_general_ledger.
  destruct (endswith filename ".csv"); cbn [negb]; [|done].
  destruct (read_csv io contents) as [df|]; [|done].
  cbv zeta.
  destruct (has_columns ["gl_id"; "date"; "debit_amount"; "credit_amount"; "account_id"] df);
    cbn [negb]; [|done].
  destruct (mapM _ (seq 0 (nrows df))) as [[|gl gls]|] eqn:Hm; [done| |done].
  destruct (calculate_data_quality ext df "general_ledger") as [quality_report|] eqn:Hq;
    [|done].
  intros [= <- <- <-]. exists df.
  destruct (mapM_seq_lookup _ _ _ Hm) as [Hlen Hrows].
  destruct (calculate_data_quality_name _ _ _ _ Hq) as [Hname _].
  destruct (replace_one_spec "general_ledger" quality_report (data_quality srv) Hname)
    as (Hin & Hother & _).
  cbn [collections general_ledger transactions reconciliation_results anomalies
       data_quality set_data_quality set_general_ledger].
  split; [done|]. split; [done|]. split; [simpl; lia|]. split; [done|].
  split; [intros i Hi; apply Hrows; simpl in *; lia|]. split; [|done].
  intros Hinj. apply NoDup_alt. intros i j oid Hi Hj.
  rewrite list_lookup_fmap in Hi, Hj.
  destruct ((gl :: gls) !! i) as [gi|] eqn:Hgi; [|done].
  destruct ((gl :: gls) !! j) as [gj|] eqn:Hgj; [|done].
  pose proof (lookup_lt_Some _ _ _ Hgi) as Hilt.
  pose proof (lookup_lt_Some _ _ _ Hgj) as Hjlt.
  destruct (Hrows i ltac:(simpl in *; lia)) as (gi' & Hgi' & Hri).
  destruct (Hrows j ltac:(simpl in *; lia)) as (gj' & Hgj' & Hrj).
  rewrite Hgi in Hgi'. rewrite Hgj in Hgj'.
  injection Hgi' as <-. injection Hgj' as <-.
  apply gl_entry_of_row_id in Hri, Hrj. simpl in Hi, Hj.
  apply Hinj; [simpl in *; lia|simpl in *; lia|congruence].
Qed.

(** X24 (a failed ledger upload).  For a file that is accepted up to the
    column check: when it has no row, or a row whose debit or credit amount
    does not convert, the upload answers with the error and leaves the ledger
    empty; when all rows convert but the quality calculation raises, it
    answers with the error although the ledger now holds the rows of the
    file. *)
Theorem failed_general_ledger_upload_effects (ext : External) (io : Csv) (ids : nat → N)
    (filename contents : string) (srv : Server) (df : DataFrame) :
  endswith filename ".csv" = true →
  read_csv io contents = Some df →
  has_columns ["gl_id"; "date"; "debit_amount"; "credit_amount"; "account_id"] df = true →
  let rows := mapM (fun i => gl_entry_of_row io df (ids i) i) (seq 0 (nrows df)) in
  let run := upload_general_ledger ext io ids filename contents srv in
  ((nrows df = 0 ∨ ∃ i, i < nrows df ∧ gl_entry_of_row io df (ids i) i = None) →
   run = (set_general_ledger [] srv, ProcessingError))
  ∧ (∀ gl_entries, rows = Some gl_entries → gl_entries ≠ [] →
       amount_holds_string df →
       run = (set_general_ledger gl_entries srv, ProcessingError)).
Proof.
  intros Hcsv Hread Hcols. cbv zeta. unfold upload_general_ledger.
  rewrite Hcsv, Hread. cbv zeta. rewrite Hcols. cbn [negb]. split.
  - intros [->|(i & Hi & Hrow)]; [done|].
    by rewrite (mapM_seq_None (fun i => gl_entry_of_row io df (ids i) i) _ i Hi Hrow).
  - intros gls -> Hne Hstr. destruct gls as [|gl gls]; [done|].
    apply (quality_raises_string_amount ext df "general_ledger") in Hstr.
    by rewrite Hstr.
Qed.

Lemma upload_transactions_success_witness :
  ∃ df,
    read_csv example_csv "transactions" = Some df
    ∧ 2 = nrows df
    ∧ reconciliation_results
        (collections
           (upload_transactions example_external example_csv N.of_nat
              "transactions.csv" "transactions" server_two_transactions).1)
      = [old_result].
Proof.
  destruct (upload_transactions_success example_external example_csv N.of_nat
              "transactions.csv" "transactions" server_two_transactions _ _ _
              ltac:(vm_compute; reflexivity))
    as (df & Hread & Hcount & _ & _ & _ & _ & _ & _ & _ & Hres & _).
  exists df. split; [done|]. split; [done|]. exact Hres.
Defined.

Lemma failed_transactions_upload_effects_witness :
  upload_transactions example_external example_csv N.of_nat
    "transactions.csv" "transactions, one amount unreadable" server_two_transactions
  = (set_transactions [] server_two_transactions, ProcessingError).
Proof.
  destruct (failed_transactions_upload_effects example_external example_csv N.of_nat
              "transactions.csv" "transactions, one amount unreadable"
              server_two_transactions
              (frame_of_amounts (ObjectColumn [Some "100"; Some "abc"]))
              eq_refl eq_refl eq_refl) as [Hclear _].
  apply Hclear. right. exists 1. split; [simpl; lia|reflexivity].
Defined.

Lemma upload_general_ledger_success_witness :
  ∃ df,
    read_csv example_csv "ledger" = Some df
    ∧ 1 = nrows df
    ∧ transactions
        (collections
           (upload_general_ledger example_external example_csv N.of_nat
              "gl.csv" "ledger" server_two_transactions).1)
      = [txn_100; txn_100_bis].
Proof.
  destruct (upload_general_ledger_success example_external example_csv N.of_nat
              "gl.csv" "ledger" server_two_transactions _ _ _
              ltac:(vm_compute; reflexivity))
    as (df & Hread & Hcount & _ & _ & _ & _ & _ & _ & _ & Htxn & _).
  exists df. split; [done|]. split; [done|]. exact Htxn.
Defined.

Lemma failed_general_ledger_upload_effects_witness :
  upload_general_ledger example_external example_csv N.of_nat
    "gl.csv" "ledger, debit unreadable"
    (mkServer (mkDatabase [] [gl_debit 10 "GL001" 100] [] []) [])
  = (mkServer (mkDatabase [] [] [] []) [], ProcessingError).
Proof.
  destruct (failed_general_ledger_upload_effects example_external example_csv N.of_nat
              "gl.csv" "ledger, debit unreadable"
              (mkServer (mkDatabase [] [gl_debit 10 "GL001" 100] [] []) [])
              (frame_of_debits (ObjectColumn [Some "n/a"]))
              eq_refl eq_refl eq_refl) as [Hclear _].
  apply Hclear. right. exists 0. split; [simpl; lia|reflexivity].
Defined.
